(** * ix-date-input: the validated field and its dropdown overlay

    A shallow embedding of [packages/core/src/components/date-input/date-input.tsx]
    (class [DateInput]).  The component members become a record, every method
    a function on a world made of the component, the form internals, the
    host element, the process-wide dropdown controller, the log of emitted
    events and the continuations parked behind an [await]. *)

From stdpp Require Import gmap strings list.
From Stdlib Require Import ZArith Ascii String Lia.

Local Open Scope string_scope.

(** ** luxon's [DateTime], as far as the component looks at it

    The component reads [isValid], [invalidReason] and, through [<] and [>],
    [valueOf()].  An invalid [DateTime] carries its reason, a valid one its
    epoch milliseconds. *)

Inductive DateTime : Type :=
| DTValid (ts : Z)
| DTInvalid (reason : string).

Definition dt_isValid (d : DateTime) : bool :=
  match d with DTValid _ => true | DTInvalid _ => false end.

(** [date.invalidReason]: [null] for a valid date. *)
Definition dt_invalidReason (d : DateTime) : option string :=
  match d with DTValid _ => None | DTInvalid r => Some r end.

(** [date.valueOf()]: [NaN] (here [None]) for an invalid date. *)
Definition dt_valueOf (d : DateTime) : option Z :=
  match d with DTValid ts => Some ts | DTInvalid _ => None end.

(** JavaScript's [a < b] and [a > b] on two [DateTime]s: both operands go
    through [valueOf()], and any comparison with [NaN] is [false]. *)
Definition dt_lt (a b : DateTime) : bool :=
  match dt_valueOf a, dt_valueOf b with
  | Some x, Some y => (x <? y)%Z
  | _, _ => false
  end.

Definition dt_gt (a b : DateTime) : bool :=
  match dt_valueOf a, dt_valueOf b with
  | Some x, Some y => (x >? y)%Z
  | _, _ => false
  end.

(** ** JavaScript truthiness of [string | undefined] and of [string | null] *)

Definition truthy (v : option string) : bool :=
  match v with
  | None => false
  | Some s => negb (String.eqb s "")
  end.

(** [x || undefined] on a [string | null]. *)
Definition or_undefined (v : option string) : option string :=
  if truthy v then v else None.

(** ** A parser for the default pattern

    [luxon_yyyyLLdd] follows [DateTime.fromFormat] on the component's default
    pattern ["yyyy/LL/dd"]: a year of four to six digits, a two-digit month
    and a two-digit day, separated by slashes.  A text the pattern does not
    match is ["unparsable"]; a month or day that does not exist is
    ["unit out of range"].  Other patterns are outside this sample and
    answer ["unparsable"], as luxon does for the empty pattern.  The
    theorems below hold for every parser; this one supplies concrete
    runs. *)

Definition digit_of (c : ascii) : option Z :=
  let n := Z.of_nat (nat_of_ascii c) in
  if ((48 <=? n) && (n <=? 57))%Z then Some (n - 48)%Z else None.

Fixpoint digits_from (acc : Z) (s : string) : option Z :=
  match s with
  | EmptyString => Some acc
  | String c rest =>
      match digit_of c with
      | Some d => digits_from (acc * 10 + d)%Z rest
      | None => None
      end
  end.

Definition number_of (s : string) : option Z :=
  match s with
  | EmptyString => None
  | _ => digits_from 0%Z s
  end.

(** [split_slash cur s]: the pieces of [s] between slashes, [cur] being the
    piece under construction. *)
Fixpoint split_slash (cur : string) (s : string) : list string :=
  match s with
  | EmptyString => [cur]
  | String c rest =>
      if Ascii.eqb c "/"%char then cur :: split_slash EmptyString rest
      else split_slash (cur ++ String c EmptyString) rest
  end.

Definition isLeapYear (y : Z) : bool :=
  (((y mod 4 =? 0) && negb (y mod 100 =? 0)) || (y mod 400 =? 0))%Z.

Definition daysInMonth (y m : Z) : Z :=
  if (m =? 2)%Z then (if isLeapYear y then 29 else 28)%Z
  else if ((m =? 4) || (m =? 6) || (m =? 9) || (m =? 11))%Z then 30%Z
  else 31%Z.

(** Days between 1970-01-01 and the given civil date. *)
Definition daysFromCivil (y m d : Z) : Z :=
  let y' := (if m <=? 2 then y - 1 else y)%Z in
  let era := (y' / 400)%Z in
  let yoe := (y' - era * 400)%Z in
  let mp := (if m >? 2 then m - 3 else m + 9)%Z in
  let doy := ((153 * mp + 2) / 5 + d - 1)%Z in
  let doe := (yoe * 365 + yoe / 4 - yoe / 100 + doy)%Z in
  (era * 146097 + doe - 719468)%Z.

Definition luxon_yyyyLLdd (text fmt : string) : DateTime :=
  if negb (String.eqb fmt "yyyy/LL/dd") then DTInvalid "unparsable"
  else
    match split_slash EmptyString text with
    | [ys; ms; ds] =>
        if negb ((4 <=? String.length ys) && (String.length ys <=? 6)
                 && (String.length ms =? 2) && (String.length ds =? 2))%nat
        then DTInvalid "unparsable"
        else
          match number_of ys, number_of ms, number_of ds with
          | Some y, Some m, Some d =>
              if ((1 <=? m) && (m <=? 12) && (1 <=? d) && (d <=? daysInMonth y m))%Z
              then DTValid (daysFromCivil y m d * 86400000)%Z
              else DTInvalid "unit out of range"
          | _, _, _ => DTInvalid "unparsable"
          end
    | _ => DTInvalid "unparsable"
    end.

(** ** The component's members *)

(** [from?: string | null]: a text, [null] or [undefined]. *)
Inductive FromValue : Type :=
| FromUndefined
| FromNull
| FromText (s : string).

Definition from_of_value (v : option string) : FromValue :=
  match v with None => FromUndefined | Some s => FromText s end.

(** The [@Prop]s the host application configures; no method writes them. *)
Record Props : Type := mkProps {
  minDate : string;
  maxDate : string;
  format : string;
  required : option bool;
}.

(** The members the methods read and write: the mutable [value] prop, the
    [@State]s and the private fields. *)
Record DateInput : Type := mkDateInput {
  props : Props;
  value : option string;
  show : bool;
  from : FromValue;
  isInputInvalid : bool;
  isInvalid : bool;
  isValid : bool;
  isInfo : bool;
  isWarning : bool;
  invalidReason : option string;
  touched : bool;
}.

(** [ValidationResults], the argument of the validation hook. *)
Record ValidationResults : Type := mkValidationResults {
  vr_isInfo : bool;
  vr_isInvalid : bool;
  vr_isInvalidByRequired : bool;
  vr_isValid : bool;
  vr_isWarning : bool;
}.

(** The fields of [ValidityState] that are not constant in
    [getValidityState]. *)
Record ValidityState : Type := mkValidityState {
  patternMismatch : bool;
  valid : bool;
  valueMissing : bool;
}.

(** ** Events and effects *)

Inductive Event : Type :=
| ValueChange (v : option string)
| ValidityStateChange (mismatch : bool) (reason : option string)
| IxFocus
| IxBlur.

(** What leaves the component: an emitted event, a form value handed to
    [formInternals.setFormValue], a call into the dropdown controller. *)
Inductive Effect : Type :=
| Emit (e : Event)
| SetFormValue (v : option string)
| CtlDismissAll
| CtlPresent (id : string)
| CtlDismiss (id : string).

(** An effect is logged with the parse verdict a listener called at that
    moment would read off the component: [isInputInvalid] and
    [invalidReason]. *)
Record Entry : Type := mkEntry {
  what : Effect;
  seenInputInvalid : bool;
  seenReason : option string;
}.

(** A continuation parked behind an [await]. *)
Inductive Job : Type :=
| JValidity (mismatch : bool)   (* onInputValidationChange, after getValidityState() *)
| JOpen                         (* openDropdown, after waitForCurrent() *)
| JClose.                       (* closeDropdown, after waitForCurrent() *)

(** ** The dropdown controller (overlay coordinator)

    The component imports [dropdownController] from
    [../dropdown/dropdown-controller], a module outside the files embedded
    here; its registry and operations follow the specification's Overlay
    Coordinator. *)

(** Modelled from the spec: the OverlayRegistration of the missing
    dropdown controller, "identifier (unique per overlay instance),
    reference to trigger element, current visibility flag"; the identifier
    is the key under which the registry holds the registration. *)
Record Overlay : Type := mkOverlay {
  trigger : string;
  visibility : bool;
}.

Definition set_visibility (b : bool) (o : Overlay) : Overlay :=
  {| trigger := trigger o; visibility := b |}.

(** Modelled from the spec: [register] of the missing dropdown controller,
    "created when an overlay mounts", in "a process-wide registry keyed by
    identifier". *)
Definition register (id trig : string) (reg : gmap string Overlay) : gmap string Overlay :=
  <[id := {| trigger := trig; visibility := false |}]> reg.

(** Modelled from the spec: [getDropdownById] of the missing dropdown
    controller, the lookup in the registry keyed by identifier. *)
Definition getDropdownById (id : string) (reg : gmap string Overlay) : option Overlay :=
  reg !! id.

(** Modelled from the spec: [present] of the missing dropdown controller,
    "marks the overlay visible; is a no-op if the identifier is unknown". *)
Definition present (id : string) (reg : gmap string Overlay) : gmap string Overlay :=
  match reg !! id with
  | Some o => <[id := set_visibility true o]> reg
  | None => reg
  end.

(** Modelled from the spec: [dismiss] of the missing dropdown controller,
    "marks not visible". *)
Definition dismiss (id : string) (reg : gmap string Overlay) : gmap string Overlay :=
  match reg !! id with
  | Some o => <[id := set_visibility false o]> reg
  | None => reg
  end.

(** Modelled from the spec: [dismissAll] of the missing dropdown
    controller, "marks every registered overlay not visible". *)
Definition dismissAll (reg : gmap string Overlay) : gmap string Overlay :=
  set_visibility false <$> reg.

(** The overlay registered under [id] is shown. *)
Definition visible (id : string) (reg : gmap string Overlay) : Prop :=
  exists o, reg !! id = Some o /\ visibility o = true.

Definition at_most_one_visible (reg : gmap string Overlay) : Prop :=
  forall i j, visible i reg -> visible j reg -> i = j.

Definition none_visible (reg : gmap string Overlay) : Prop :=
  forall i, ~ visible i reg.

(** ** The world a method runs in *)

Record World : Type := mkWorld {
  self : DateInput;
  (** the value last handed to [formInternals.setFormValue]; [None] is [null] *)
  formValue : option string;
  (** [hostElement.classList] *)
  hostClassList : list string;
  (** [dropdownElementRef]: [None] until the dropdown element is mounted,
      then its [data-ix-dropdown] attribute *)
  dropdownElementRef : option (option string);
  (** the registry of [dropdownController] *)
  dropdowns : gmap string Overlay;
  (** effects so far, oldest first *)
  log : list Entry;
  (** continuations waiting for their promise, oldest first *)
  pending : list Job;
}.

(** *** Field updates *)

Definition with_value (v : option string) (c : DateInput) : DateInput :=
  {| props := props c; value := v; show := show c; from := from c;
     isInputInvalid := isInputInvalid c; isInvalid := isInvalid c;
     isValid := isValid c; isInfo := isInfo c; isWarning := isWarning c;
     invalidReason := invalidReason c; touched := touched c |}.

Definition with_show (b : bool) (c : DateInput) : DateInput :=
  {| props := props c; value := value c; show := b; from := from c;
     isInputInvalid := isInputInvalid c; isInvalid := isInvalid c;
     isValid := isValid c; isInfo := isInfo c; isWarning := isWarning c;
     invalidReason := invalidReason c; touched := touched c |}.

Definition with_from (f : FromValue) (c : DateInput) : DateInput :=
  {| props := props c; value := value c; show := show c; from := f;
     isInputInvalid := isInputInvalid c; isInvalid := isInvalid c;
     isValid := isValid c; isInfo := isInfo c; isWarning := isWarning c;
     invalidReason := invalidReason c; touched := touched c |}.

Definition with_isInputInvalid (b : bool) (c : DateInput) : DateInput :=
  {| props := props c; value := value c; show := show c; from := from c;
     isInputInvalid := b; isInvalid := isInvalid c;
     isValid := isValid c; isInfo := isInfo c; isWarning := isWarning c;
     invalidReason := invalidReason c; touched := touched c |}.

Definition with_isInvalid (b : bool) (c : DateInput) : DateInput :=
  {| props := props c; value := value c; show := show c; from := from c;
     isInputInvalid := isInputInvalid c; isInvalid := b;
     isValid := isValid c; isInfo := isInfo c; isWarning := isWarning c;
     invalidReason := invalidReason c; touched := touched c |}.

Definition with_flags (info valid warning : bool) (c : DateInput) : DateInput :=
  {| props := props c; value := value c; show := show c; from := from c;
     isInputInvalid := isInputInvalid c; isInvalid := isInvalid c;
     isValid := valid; isInfo := info; isWarning := warning;
     invalidReason := invalidReason c; touched := touched c |}.

Definition with_invalidReason (r : option string) (c : DateInput) : DateInput :=
  {| props := props c; value := value c; show := show c; from := from c;
     isInputInvalid := isInputInvalid c; isInvalid := isInvalid c;
     isValid := isValid c; isInfo := isInfo c; isWarning := isWarning c;
     invalidReason := r; touched := touched c |}.

Definition with_touched (b : bool) (c : DateInput) : DateInput :=
  {| props := props c; value := value c; show := show c; from := from c;
     isInputInvalid := isInputInvalid c; isInvalid := isInvalid c;
     isValid := isValid c; isInfo := isInfo c; isWarning := isWarning c;
     invalidReason := invalidReason c; touched := b |}.

Definition on_self (f : DateInput -> DateInput) (w : World) : World :=
  {| self := f (self w); formValue := formValue w;
     hostClassList := hostClassList w; dropdownElementRef := dropdownElementRef w;
     dropdowns := dropdowns w; log := log w; pending := pending w |}.

Definition with_formValue (v : option string) (w : World) : World :=
  {| self := self w; formValue := v;
     hostClassList := hostClassList w; dropdownElementRef := dropdownElementRef w;
     dropdowns := dropdowns w; log := log w; pending := pending w |}.

Definition with_hostClassList (l : list string) (w : World) : World :=
  {| self := self w; formValue := formValue w;
     hostClassList := l; dropdownElementRef := dropdownElementRef w;
     dropdowns := dropdowns w; log := log w; pending := pending w |}.

Definition with_dropdownElementRef (r : option (option string)) (w : World) : World :=
  {| self := self w; formValue := formValue w;
     hostClassList := hostClassList w; dropdownElementRef := r;
     dropdowns := dropdowns w; log := log w; pending := pending w |}.

Definition with_dropdowns (reg : gmap string Overlay) (w : World) : World :=
  {| self := self w; formValue := formValue w;
     hostClassList := hostClassList w; dropdownElementRef := dropdownElementRef w;
     dropdowns := reg; log := log w; pending := pending w |}.

Definition with_pending (js : list Job) (w : World) : World :=
  {| self := self w; formValue := formValue w;
     hostClassList := hostClassList w; dropdownElementRef := dropdownElementRef w;
     dropdowns := dropdowns w; log := log w; pending := js |}.

(** Append an effect to the log, stamped with the verdict readable now. *)
Definition record_effect (e : Effect) (w : World) : World :=
  {| self := self w; formValue := formValue w;
     hostClassList := hostClassList w; dropdownElementRef := dropdownElementRef w;
     dropdowns := dropdowns w;
     log := log w ++ [ {| what := e;
                          seenInputInvalid := isInputInvalid (self w);
                          seenReason := invalidReason (self w) |} ];
     pending := pending w |}.

Definition emit (e : Event) (w : World) : World := record_effect (Emit e) w.

(** Park a continuation behind its [await]. *)
Definition park (j : Job) (w : World) : World :=
  with_pending (pending w ++ [j]) w.

(** ** The methods of [DateInput]

    Stencil gives every [@Prop] and [@State] member a setter: an assigned
    value that differs ([!==]) from the stored one is stored and the
    [@Watch] handlers of the member run at once, in the order of their
    declaration; an equal value is dropped.  [value] has the handlers
    [watchValuePropHandler] and [watchValue], [isInputInvalid] has
    [onInputValidationChange]; the other members have none. *)

Section Component.

(** [DateTime.fromFormat] of luxon: text, pattern, result. *)
Variable fromFormat : string -> string -> DateTime.

(** [getValidityState()], the value the promise resolves to. *)
Definition getValidityState (c : DateInput) : ValidityState :=
  {| patternMismatch := isInputInvalid c;
     valid := negb (isInputInvalid c);
     valueMissing :=
       match required (props c) with Some true => true | _ => false end
       && negb (truthy (value c)) |}.

(** [hasValidValue()]: [Promise.resolve(!!this.value)]. *)
Definition hasValidValue (c : DateInput) : bool := truthy (value c).

(** [isTouched()]. *)
Definition isTouched (c : DateInput) : bool := touched c.

(** [@Watch('isInputInvalid') onInputValidationChange]: it calls
    [getValidityState()] at once and continues behind the [await]. *)
Definition onInputValidationChange (w : World) : World :=
  park (JValidity (patternMismatch (getValidityState (self w)))) w.

(** [this.isInputInvalid = b]: the setter stores a value that differs from
    the stored one and then runs the member's [@Watch] handler; an equal
    value is dropped. *)
Definition assign_isInputInvalid (b : bool) (w : World) : World :=
  if Bool.eqb (isInputInvalid (self w)) b then w
  else onInputValidationChange (on_self (with_isInputInvalid b) w).

(** [@Watch('value') watchValue]. *)
Definition watchValue (w : World) : World :=
  on_self (with_from (from_of_value (value (self w)))) w.

(** [this.value = x], with the [@Watch('value')] handlers as [watch]. *)
Definition assign_with (watch : option string -> World -> World)
    (x : option string) (w : World) : World :=
  if decide (value (self w) = x) then w
  else watch x (on_self (with_value x) w).

(** [updateFormInternalValue], [assign] being [this.value = _]. *)
Definition updateFormInternalValue (assign : option string -> World -> World)
    (v : option string) (w : World) : World :=
  let w :=
    if truthy v
    then record_effect (SetFormValue v) (with_formValue v w)
    else record_effect (SetFormValue None) (with_formValue None w) in
  assign v w.

(** [openDropdown] and [closeDropdown] up to their
    [await this.dropdownElementRef.waitForCurrent()]. *)
Definition openDropdown (w : World) : World := park JOpen w.

Definition closeDropdown (w : World) : World := park JClose w.

(** The calls into the controller, logged. *)
Definition ctl_dismissAll (w : World) : World :=
  record_effect CtlDismissAll (with_dropdowns (dismissAll (dropdowns w)) w).

Definition ctl_present (id : string) (w : World) : World :=
  record_effect (CtlPresent id) (with_dropdowns (present id (dropdowns w)) w).

Definition ctl_dismiss (id : string) (w : World) : World :=
  record_effect (CtlDismiss id) (with_dropdowns (dismiss id (dropdowns w)) w).

(** [openDropdown] after the [await]; [attr] is
    [dropdownElement.getAttribute('data-ix-dropdown')]. *)
Definition openDropdown_resumed (attr : option string) (w : World) : World :=
  let w := ctl_dismissAll w in
  match or_undefined attr with
  | None => w                                  (* if (!id) return *)
  | Some id =>
      match getDropdownById id (dropdowns w) with
      | None => w                              (* if (!dropdown) return *)
      | Some _ => ctl_present id w
      end
  end.

(** [closeDropdown] after the [await]. *)
Definition closeDropdown_resumed (attr : option string) (w : World) : World :=
  match or_undefined attr with
  | None => w
  | Some id =>
      match getDropdownById id (dropdowns w) with
      | None => w
      | Some _ => ctl_dismiss id w
      end
  end.

(** The parse verdict of [onInput]:
    [!date.isValid || date < minDate || date > maxDate]. *)
Definition verdict (p : Props) (text : string) : bool :=
  let date := fromFormat text (format p) in
  let minD := fromFormat (minDate p) (format p) in
  let maxD := fromFormat (maxDate p) (format p) in
  negb (dt_isValid date) || dt_lt date minD || dt_gt date maxD.

(** [onInput] after its first line [this.value = value]. *)
Definition onInput_body (assign : option string -> World -> World)
    (v : option string) (w : World) : World :=
  match or_undefined v with
  | None => emit (ValueChange v) w             (* if (!value) *)
  | Some text =>
      if String.eqb (format (props (self w))) "" then w   (* if (!this.format) *)
      else
        let date := fromFormat text (format (props (self w))) in
        let w := assign_isInputInvalid (verdict (props (self w)) text) w in
        let w :=
          if isInputInvalid (self w)
          then
            on_self (with_from FromUndefined)
              (on_self (with_invalidReason (or_undefined (dt_invalidReason date))) w)
          else closeDropdown (updateFormInternalValue assign v w) in
        emit (ValueChange v) w
  end.

(** [onInput].  Its first line assigns the [value] prop, whose handler
    [watchValuePropHandler] calls [onInput] again before [watchValue] runs;
    [n] bounds the depth of that re-entry. *)
Fixpoint onInput_n (n : nat) (v : option string) (w : World) : World :=
  let assign :=
    assign_with (fun x w =>
      match n with
      | O => w
      | S k => watchValue (onInput_n k x w)
      end) in
  onInput_body assign v (assign v w).

(** One level of re-entry is all there is: the inner call assigns the value
    that is already stored (see [onInput_n_stable]). *)
Definition onInput : option string -> World -> World := onInput_n 1.

(** [this.value = x] from outside [onInput]: [watchValuePropHandler], then
    [watchValue]. *)
Definition assign_value : option string -> World -> World :=
  assign_with (fun x w => watchValue (onInput x w)).

(** [checkClassList]. *)
Definition checkClassList (w : World) : World :=
  on_self (with_isInvalid (existsb (String.eqb "ix-invalid") (hostClassList w))) w.

(** [hookValidationLifecycle]. *)
Definition hookValidationLifecycle (r : ValidationResults) (w : World) : World :=
  on_self (fun c =>
    with_flags (vr_isInfo r) (vr_isValid r) (vr_isWarning r)
      (with_isInvalid
         (vr_isInvalid r || vr_isInvalidByRequired r || isInputInvalid c) c)) w.

(** [componentWillLoad]. *)
Definition componentWillLoad (w : World) : World :=
  let w := onInput (value (self w)) w in
  let w :=
    if isInputInvalid (self w)
    then on_self (with_from FromNull) w
    else watchValue w in
  let w := checkClassList w in
  updateFormInternalValue assign_value (value (self w)) w.

(** [onCalenderClick]. *)
Definition onCalenderClick (w : World) : World :=
  if negb (show (self w)) then openDropdown w else w.

(** The handlers wired in [renderInput] and [render]. *)
Definition input_onFocus (w : World) : World := emit IxFocus (openDropdown w).

Definition input_onBlur (w : World) : World :=
  on_self (with_touched true) (emit IxBlur w).

Definition dropdown_onShowChanged (detail : bool) (w : World) : World :=
  on_self (with_show detail) w.

(** ** Continuations *)

(** Run one parked continuation; [None] when its promise is still
    unresolved (the dropdown element is not there yet). *)
Definition resume (j : Job) (w : World) : option World :=
  match j with
  | JValidity mismatch =>
      Some (emit (ValidityStateChange mismatch (invalidReason (self w))) w)
  | JOpen =>
      match dropdownElementRef w with
      | None => None
      | Some attr => Some (openDropdown_resumed attr w)
      end
  | JClose =>
      match dropdownElementRef w with
      | None => None
      | Some attr => Some (closeDropdown_resumed attr w)
      end
  end.

Fixpoint resume_all (js : list Job) (w : World) : World :=
  match js with
  | [] => w
  | j :: js =>
      match resume j w with
      | Some w' => resume_all js w'
      | None => resume_all js (park j w)
      end
  end.

(** After a task: every parked continuation whose promise is resolved
    runs, in the order of parking; the others stay parked. *)
Definition drain (w : World) : World :=
  resume_all (pending w) (with_pending [] w).

(** ** Tasks

    One task of the event loop: a handler runs to its end, then the parked
    continuations run. *)

(** A call into the shared controller by the overlay code of any field:
    the controller part of its [openDropdown] or [closeDropdown], or a bare
    [dismissAll]. *)
Inductive OverlayOp : Type :=
| OpenFor (attr : option string)
| CloseFor (attr : option string)
| DismissAllOverlays.

Definition overlay_step (o : OverlayOp) (w : World) : World :=
  match o with
  | OpenFor attr => openDropdown_resumed attr w
  | CloseFor attr => closeDropdown_resumed attr w
  | DismissAllOverlays => ctl_dismissAll w
  end.

Inductive Op : Type :=
| UserTypes (text : string)              (* <input onInput> *)
| HostAssignsValue (v : option string)   (* the value prop, set by the host *)
| PickerDateChange (picked : option string)  (* <ix-date-picker onDateChange> *)
| InputFocus
| InputBlur
| CalendarClick
| ShowChanged (detail : bool)            (* <ix-dropdown onShowChanged> *)
| ValidationHook (r : ValidationResults) (* @HookValidationLifecycle *)
| ClassListChanged (classes : list string)  (* the class observer fires *)
| DropdownMounted (attr : option string) (* ref={this.dropdownElementRef} *)
| OtherField (o : OverlayOp).

Definition handle (op : Op) (w : World) : World :=
  match op with
  | UserTypes text => onInput (Some text) w
  | HostAssignsValue v => assign_value v w
  | PickerDateChange picked => onInput picked w
  | InputFocus => input_onFocus w
  | InputBlur => input_onBlur w
  | CalendarClick => onCalenderClick w
  | ShowChanged detail => dropdown_onShowChanged detail w
  | ValidationHook r => hookValidationLifecycle r w
  | ClassListChanged classes => checkClassList (with_hostClassList classes w)
  | DropdownMounted attr => with_dropdownElementRef (Some attr) w
  | OtherField o => overlay_step o w
  end.

Definition exec (op : Op) (w : World) : World := drain (handle op w).

Definition run (ops : list Op) (w : World) : World :=
  fold_left (fun w op => exec op w) ops w.

(** The instance as constructed, with the props of the host applied. *)
Definition created (p : Props) (v : option string) (classes : list string)
    (reg : gmap string Overlay) : World :=
  {| self := {| props := p; value := v; show := false; from := FromNull;
                isInputInvalid := false; isInvalid := false; isValid := false;
                isInfo := false; isWarning := false; invalidReason := None;
                touched := false |};
     formValue := None;
     hostClassList := classes;
     dropdownElementRef := None;
     dropdowns := reg;
     log := [];
     pending := [] |}.

Definition loaded (p : Props) (v : option string) (classes : list string)
    (reg : gmap string Overlay) : World :=
  drain (componentWillLoad (created p v classes reg)).

(** The worlds the component can be in between two tasks. *)
Inductive reachable : World -> Prop :=
| reachable_loaded p v classes reg : reachable (loaded p v classes reg)
| reachable_exec op w : reachable w -> reachable (exec op w).

(** *** Reading the log *)

Definition is_validity_emit (e : Entry) : bool :=
  match what e with Emit (ValidityStateChange _ _) => true | _ => false end.

Definition is_value_emit (e : Entry) : bool :=
  match what e with Emit (ValueChange _) => true | _ => false end.

Definition is_controller_call (e : Entry) : bool :=
  match what e with
  | CtlDismissAll | CtlPresent _ | CtlDismiss _ => true
  | _ => false
  end.

(** How many validity-state-change events the log holds. *)
Definition validity_emits (l : list Entry) : nat :=
  List.length (List.filter is_validity_emit l).

End Component.


(** ** Vocabulary of the properties *)

Section Vocabulary.

Variable fromFormat : string -> string -> DateTime.

(** [onInput] when the stored value is already the one assigned: the
    assignments of [value] are dropped by the setter. *)
Definition onInput_settled (v : option string) (w : World) : World :=
  onInput_body fromFormat (fun _ w => w) v w.

(** The text does not parse under the configured pattern. *)
Definition unparsable (p : Props) (text : string) : Prop :=
  dt_isValid (fromFormat text (format p)) = false.

(** The text parses to a date before the minimum or after the maximum; a
    bound that does not parse restricts nothing. *)
Definition outside_bounds (p : Props) (text : string) : Prop :=
  exists t, fromFormat text (format p) = DTValid t /\
    ((exists m, fromFormat (minDate p) (format p) = DTValid m /\ (t < m)%Z) \/
     (exists M, fromFormat (maxDate p) (format p) = DTValid M /\ (M < t)%Z)).

(** The text parses to a date within the bounds. *)
Definition within_bounds (p : Props) (text : string) : Prop :=
  exists t, fromFormat text (format p) = DTValid t /\
    (forall m, fromFormat (minDate p) (format p) = DTValid m -> (m <= t)%Z) /\
    (forall M, fromFormat (maxDate p) (format p) = DTValid M -> (t <= M)%Z).

(** The component after [onInput] has rejected [text]. *)
Definition rejected (text : string) (c : DateInput) : DateInput :=
  with_from FromUndefined
    (with_invalidReason
       (or_undefined (dt_invalidReason (fromFormat text (format (props c)))))
       (with_isInputInvalid true (with_value (Some text) c))).

End Vocabulary.

(** The component after [onInput] has accepted [text]. *)
Definition accepted (text : string) (c : DateInput) : DateInput :=
  (if decide (value c = Some text) then (fun c => c) else with_from (FromText text))
    (with_isInputInvalid false (with_value (Some text) c)).

(** The component after [onInput] has taken an empty value, or a value
    while no pattern is configured. *)
Definition stored (v : option string) (c : DateInput) : DateInput :=
  if decide (value c = v) then c
  else with_from (from_of_value v) (with_value v c).

(** The log entries added between [w] and a later [w']. *)
Definition entries_since (w w' : World) : list Entry :=
  drop (List.length (log w)) (log w').

(** The entry an effect gets when the component is [c]. *)
Definition entry_of (e : Effect) (c : DateInput) : Entry :=
  {| what := e; seenInputInvalid := isInputInvalid c; seenReason := invalidReason c |}.

(** [onInput] runs its body once when the value is already stored, twice
    when the assignment re-enters it. *)
Definition once_or_twice {A : Type} (same : bool) (l : list A) : list A :=
  if same then l else (l ++ l)%list.

Definition is_validity_job (j : Job) : bool :=
  match j with JValidity _ => true | _ => false end.

(** How many validity notifications are parked. *)
Definition parked_validity (js : list Job) : nat :=
  List.length (List.filter is_validity_job js).

(** An entry was logged with the verdict the component [c] holds. *)
Definition saw_verdict_of (c : DateInput) (e : Entry) : Prop :=
  seenInputInvalid e = isInputInvalid c /\ seenReason e = invalidReason c.

(** What a continuation leaves alone. *)
Definition same_component (w w' : World) : Prop :=
  self w' = self w /\ formValue w' = formValue w /\
  dropdownElementRef w' = dropdownElementRef w /\
  hostClassList w' = hostClassList w.

(** The entries a continuation may log: stamped with the verdict of the
    component as it stands, never a value change, and a validity
    notification only with the reason held at that time. *)
Definition continuation_entry (c : DateInput) (e : Entry) : Prop :=
  saw_verdict_of c e /\ is_value_emit e = false /\
  (is_validity_emit e = true ->
   what e = Emit (ValidityStateChange
                    (match what e with
                     | Emit (ValidityStateChange m _) => m
                     | _ => false
                     end) (invalidReason c))).

(** Logged validity notifications plus parked ones. *)
Definition notifications (w : World) : nat :=
  validity_emits (log w) + parked_validity (pending w).
(** ** Sample configurations *)

Definition defaultProps : Props :=
  {| minDate := ""; maxDate := ""; format := "yyyy/LL/dd"; required := None |}.

(** The bounds of the year 2024. *)
Definition props2024 : Props :=
  {| minDate := "2024/01/01"; maxDate := "2024/12/31";
     format := "yyyy/LL/dd"; required := None |}.

Definition noFormatProps : Props :=
  {| minDate := ""; maxDate := ""; format := ""; required := None |}.

(** A registry with the overlays of two fields, none shown. *)
Definition twoOverlays : gmap string Overlay :=
  register "B" "field-b" (register "A" "field-a" ∅).

(** The same with the overlay of field A shown. *)
Definition overlayAShown : gmap string Overlay := present "A" twoOverlays.

(** A field with the default props whose dropdown element, registered as
    ["A"], is mounted and which has taken the valid text ["2024/05/05"]. *)
Definition committedWorld : World :=
  run luxon_yyyyLLdd
    [DropdownMounted (Some "A"); UserTypes "2024/05/05"]
    (loaded luxon_yyyyLLdd defaultProps (Some "") [] twoOverlays).

(** The default field after the text ["2024/02/30"] has been typed. *)
Definition rejectedWorld : World :=
  exec luxon_yyyyLLdd (UserTypes "2024/02/30")
    (loaded luxon_yyyyLLdd defaultProps (Some "") [] ∅).

(** A field bounded to the year 2024 whose dropdown, registered as ["A"],
    is mounted and has been opened by a focus. *)
Definition openWorld2024 : World :=
  run luxon_yyyyLLdd
    [DropdownMounted (Some "A"); InputFocus]
    (loaded luxon_yyyyLLdd props2024 (Some "") [] twoOverlays).

(** A field for which the host has configured the empty pattern. *)
Definition noFormatWorld : World :=
  loaded luxon_yyyyLLdd noFormatProps (Some "") [] ∅.

(** A field as constructed, next to a controller that shows overlay A. *)
Definition besideShownOverlay : World :=
  created defaultProps (Some "") [] overlayAShown.

(** A field as constructed, next to a controller with two hidden overlays. *)
Definition besideHiddenOverlays : World :=
  created defaultProps (Some "") [] twoOverlays.

(** No validation result raised by the hook. *)
Definition nothingRaised : ValidationResults :=
  {| vr_isInfo := false; vr_isInvalid := false; vr_isInvalidByRequired := false;
     vr_isValid := false; vr_isWarning := false |}.

(** ** What [render] hands to the elements it creates *)

(** The display props [render] reads besides the members above. *)
Record DisplayProps : Type := mkDisplayProps {
  invalidText : option string;
  i18nErrorDateUnparsable : string;
  disabled : bool;
  readonly : bool;
}.

(** The attributes [render] and [renderInput] compute from the members. *)
Record Rendered : Type := mkRendered {
  wrapper_isInvalid : bool;             (* <ix-field-wrapper isInvalid=...> *)
  wrapper_invalidText : option string;  (* <ix-field-wrapper invalidText=...> *)
  input_class_is_invalid : bool;        (* <input class={{ 'is-invalid': ... }}> *)
  input_value : string;                 (* <input value={this.value ?? ''}> *)
  picker_from : string;                 (* <ix-date-picker from={this.from ?? ''}> *)
  calendar_hidden : bool;               (* 'calendar-hidden': disabled || readonly *)
  dropdown_show : bool;                 (* <ix-dropdown show={this.show}> *)
}.

Definition render (d : DisplayProps) (c : DateInput) : Rendered :=
  {| wrapper_isInvalid := isInvalid c;
     wrapper_invalidText :=
       if isInputInvalid c then Some (i18nErrorDateUnparsable d) else invalidText d;
     input_class_is_invalid := isInputInvalid c;
     input_value := match value c with Some s => s | None => "" end;
     picker_from := match from c with FromText s => s | _ => "" end;
     calendar_hidden := disabled d || readonly d;
     dropdown_show := show c |}.

(** ** Further vocabulary *)

Section MoreVocabulary.

Variable fromFormat : string -> string -> DateTime.

(** The members after the body of [onInput] has run once on [c]. *)
Definition settle (v : option string) (c : DateInput) : DateInput :=
  match or_undefined v with
  | None => c
  | Some text =>
      if String.eqb (format (props c)) "" then c
      else if verdict fromFormat (props c) text
      then with_from FromUndefined
             (with_invalidReason
                (or_undefined (dt_invalidReason (fromFormat text (format (props c)))))
                (with_isInputInvalid true c))
      else with_isInputInvalid false c
  end.

(** The flag [onInput] leaves for the value [v]. *)
Definition flag_after (v : option string) (c : DateInput) : bool :=
  match or_undefined v with
  | None => isInputInvalid c
  | Some text =>
      if String.eqb (format (props c)) "" then isInputInvalid c
      else verdict fromFormat (props c) text
  end.

(** The committed form value [onInput] leaves for the value [v]. *)
Definition committed_after (v : option string) (c : DateInput)
    (old : option string) : option string :=
  match or_undefined v with
  | None => old
  | Some text =>
      if String.eqb (format (props c)) "" then old
      else if verdict fromFormat (props c) text then old
      else Some text
  end.

End MoreVocabulary.

Definition is_blur (op : Op) : bool :=
  match op with InputBlur => true | _ => false end.

(** How many value-change events a piece of log holds. *)
Definition value_emits (l : list Entry) : nat :=
  List.length (List.filter is_value_emit l).

(** The validity-state-change events of a piece of log, in order. *)
Definition validity_events (l : list Entry) : list Event :=
  flat_map (fun e =>
    match what e with
    | Emit (ValidityStateChange m r) => [ValidityStateChange m r]
    | _ => []
    end) l.

(** The validity events a list of parked continuations emits when the
    component holds the reason [r]. *)
Definition job_events (r : option string) (js : list Job) : list Event :=
  flat_map (fun j =>
    match j with
    | JValidity m => [ValidityStateChange m r]
    | _ => []
    end) js.

(** * ix-kpi

    [packages/core/src/components/kpi/kpi.tsx] (class [Kpi]). *)

Module Kpi.

Section WithNumbers.

(** JavaScript numbers and their [toString()], as the template literal of
    [getTooltipText] applies it. *)
Variable number : Type.
Variable number_toString : number -> string.

(** [value?: string | number]. *)
Inductive KpiValue : Type :=
| ValueText (s : string)
| ValueNumber (n : number).

Record Kpi : Type := mkKpi {
  label : option string;
  ariaLabelAlarmIcon : option string;
  ariaLabelWarningIcon : option string;
  value : option KpiValue;
  unit : option string;
  state : string;
  orientation : string;
}.

(** The [<ix-icon>] of [getStateIcon]: which icon, and its [aria-label]. *)
Inductive IconName : Type := IconAlarm | IconWarning.

Record Icon : Type := mkIcon {
  icon_name : IconName;
  icon_ariaLabel : option string;
}.

(** [getStateIcon]; [None] is the empty string of the [default] case. *)
Definition getStateIcon (k : Kpi) : option Icon :=
  if String.eqb (state k) "alarm"
  then Some {| icon_name := IconAlarm; icon_ariaLabel := ariaLabelAlarmIcon k |}
  else if String.eqb (state k) "warning"
  then Some {| icon_name := IconWarning; icon_ariaLabel := ariaLabelWarningIcon k |}
  else None.

(** A template literal hole filled with a [string | undefined]. *)
Definition text_of_label (l : option string) : string :=
  match l with Some s => s | None => "undefined" end.

(** A template literal hole filled with a [string | number | undefined]. *)
Definition text_of_value (v : option KpiValue) : string :=
  match v with
  | Some (ValueText s) => s
  | Some (ValueNumber n) => number_toString n
  | None => "undefined"
  end.

(** [getTooltipText]. *)
Definition getTooltipText (k : Kpi) : string :=
  let tooltip := text_of_label (label k) ++ ": " ++ text_of_value (value k) in
  if truthy (unit k)
  then tooltip ++ (" " ++ match unit k with Some u => u | None => "" end)
  else tooltip.

(** The classes and the conditional child of [render]. *)
Record KpiRendered : Type := mkKpiRendered {
  title : string;
  class_stacked : bool;
  class_alarm : bool;
  class_warning : bool;
  stateIcon : option Icon;
  unit_span : option string;
}.

Definition render (k : Kpi) : KpiRendered :=
  {| title := getTooltipText k;
     class_stacked := String.eqb (orientation k) "vertical";
     class_alarm := String.eqb (state k) "alarm";
     class_warning := String.eqb (state k) "warning";
     stateIcon := getStateIcon k;
     unit_span := if truthy (unit k) then unit k else None |}.

End WithNumbers.

End Kpi.

(** * Properties *)

(** ** The sample parser on the dates of the scenarios *)

Example luxon_sample_valid :
  luxon_yyyyLLdd "2024/02/29" "yyyy/LL/dd" = DTValid 1709164800000%Z.
Proof. reflexivity. Qed.

Example luxon_sample_epoch :
  luxon_yyyyLLdd "1970/01/01" "yyyy/LL/dd" = DTValid 0%Z.
Proof. reflexivity. Qed.

Example luxon_sample_feb30 :
  luxon_yyyyLLdd "2024/02/30" "yyyy/LL/dd" = DTInvalid "unit out of range".
Proof. reflexivity. Qed.

Example luxon_sample_text :
  luxon_yyyyLLdd "tomorrow" "yyyy/LL/dd" = DTInvalid "unparsable".
Proof. reflexivity. Qed.

(** ** Tactics *)

Ltac open_world w :=
  let c := fresh "c" in
  destruct w as [c fv0 classes0 el0 reg0 lg0 pd0];
  destruct c as [p0 val0 sh0 fr0 flag0 inv0 va0 inf0 wa0 reason0 tch0].

Lemma World_ext w1 w2 :
  self w1 = self w2 -> formValue w1 = formValue w2 ->
  hostClassList w1 = hostClassList w2 ->
  dropdownElementRef w1 = dropdownElementRef w2 ->
  dropdowns w1 = dropdowns w2 -> log w1 = log w2 -> pending w1 = pending w2 ->
  w1 = w2.
Proof. destruct w1, w2. simpl. by intros -> -> -> -> -> -> ->. Qed.

(** ** Truthiness *)

Lemma truthy_Some text : text <> "" -> truthy (Some text) = true.
Proof. intros H. simpl. apply negb_true_iff, String.eqb_neq, H. Qed.

Lemma truthy_true_iff v : truthy v = true <-> exists s, v = Some s /\ s <> "".
Proof.
  destruct v as [s|]; simpl.
  - rewrite negb_true_iff, String.eqb_neq. split.
    + intros H. exists s. by split.
    + intros (s' & [= <-] & H). exact H.
  - split; [discriminate | intros (s & [=] & _)].
Qed.

Lemma or_undefined_Some text : text <> "" -> or_undefined (Some text) = Some text.
Proof. intros H. unfold or_undefined. by rewrite truthy_Some. Qed.

Lemma or_undefined_cases v :
  (or_undefined v = None /\ truthy v = false) \/
  (exists text, v = Some text /\ text <> "" /\ or_undefined v = Some text).
Proof.
  unfold or_undefined. destruct (truthy v) eqn:Hv.
  - right. apply truthy_true_iff in Hv as (s & -> & Hs). by exists s.
  - by left.
Qed.

(** ** The log *)

Lemma entries_since_app w w' es :
  log w' = (log w ++ es)%list -> entries_since w w' = es.
Proof. intros H. unfold entries_since. rewrite H. apply drop_app_length. Qed.

Lemma entries_since_refl w w' : log w' = log w -> entries_since w w' = [].
Proof. intros H. apply entries_since_app. by rewrite app_nil_r. Qed.

Lemma validity_emits_app l1 l2 :
  validity_emits (l1 ++ l2) = validity_emits l1 + validity_emits l2.
Proof. unfold validity_emits. by rewrite List.filter_app, length_app. Qed.

Lemma parked_validity_app l1 l2 :
  parked_validity (l1 ++ l2) = parked_validity l1 + parked_validity l2.
Proof. unfold parked_validity. by rewrite List.filter_app, length_app. Qed.

Lemma Forall_once_or_twice {A} (P : A -> Prop) b l :
  Forall P l -> Forall P (once_or_twice b l).
Proof. intros H. destruct b; simpl; [done | by apply Forall_app]. Qed.

(** ** The verdict *)

Section Verdict.

Variable fromFormat : string -> string -> DateTime.

Lemma verdict_rejects p text :
  unparsable fromFormat p text \/ outside_bounds fromFormat p text ->
  verdict fromFormat p text = true.
Proof.
  unfold verdict, unparsable, outside_bounds, dt_lt, dt_gt.
  intros [H | (t & -> & [(m & -> & H) | (M & -> & H)])]; simpl.
  - by rewrite H.
  - apply Z.ltb_lt in H. by rewrite H.
  - apply Z.ltb_lt in H. rewrite Z.gtb_ltb, H. apply orb_true_r.
Qed.

Lemma verdict_accepts p text :
  within_bounds fromFormat p text -> verdict fromFormat p text = false.
Proof.
  unfold verdict, within_bounds, dt_lt, dt_gt.
  intros (t & -> & Hmin & Hmax); simpl.
  destruct (fromFormat (minDate p) _) as [m|], (fromFormat (maxDate p) _) as [M|];
    simpl; try reflexivity;
    repeat match goal with
    | |- context [(?a <? ?b)%Z] => destruct (Z.ltb_spec a b)
    | |- context [(?a >? ?b)%Z] => rewrite (Z.gtb_ltb a b)
    end; simpl; try reflexivity.
  all: try (specialize (Hmin _ eq_refl)); try (specialize (Hmax _ eq_refl)); lia.
Qed.

(** The verdict is exactly "unparsable or out of bounds". *)
Lemma verdict_true_iff p text :
  verdict fromFormat p text = true <->
  unparsable fromFormat p text \/ outside_bounds fromFormat p text.
Proof.
  split; [|apply verdict_rejects].
  unfold verdict, unparsable, outside_bounds, dt_lt, dt_gt.
  destruct (fromFormat text _) as [t|r]; simpl; [|by left].
  intros H. right. exists t. split; [done|].
  apply orb_true_iff in H as [H|H].
  - left. destruct (fromFormat (minDate p) _) as [m|]; simpl in H; [|done].
    exists m. split; [done|]. by apply Z.ltb_lt.
  - right. destruct (fromFormat (maxDate p) _) as [M|]; simpl in H; [|done].
    exists M. split; [done|]. rewrite Z.gtb_ltb in H. by apply Z.ltb_lt.
Qed.

(** ** Re-entry of [onInput] through the [value] watcher *)

Lemma assign_isInputInvalid_value b w :
  value (self (assign_isInputInvalid b w)) = value (self w).
Proof. unfold assign_isInputInvalid. destruct (Bool.eqb _ _); reflexivity. Qed.

Lemma onInput_body_settled watch v w :
  value (self w) = v ->
  onInput_body fromFormat (assign_with watch) v w = onInput_settled fromFormat v w.
Proof.
  intros Hv. unfold onInput_settled, onInput_body.
  destruct (or_undefined v) as [text|]; [|reflexivity].
  destruct (String.eqb _ _); [reflexivity|].
  destruct (isInputInvalid _); [reflexivity|].
  do 2 f_equal. unfold updateFormInternalValue, assign_with.
  destruct (truthy v); simpl; rewrite assign_isInputInvalid_value;
    destruct (decide _); congruence.
Qed.

Lemma onInput_settled_value v w :
  value (self (onInput_settled fromFormat v w)) = value (self w).
Proof.
  unfold onInput_settled, onInput_body.
  destruct (or_undefined v) as [text|]; [|reflexivity].
  destruct (String.eqb _ _); [reflexivity|].
  destruct (isInputInvalid _); simpl.
  - apply assign_isInputInvalid_value.
  - unfold updateFormInternalValue.
    destruct (truthy v); simpl; apply assign_isInputInvalid_value.
Qed.

Lemma onInput_n_same n v w :
  value (self w) = v ->
  onInput_n fromFormat n v w = onInput_settled fromFormat v w.
Proof.
  intros Hv. destruct n; simpl.
  all: unfold assign_with at 2; destruct (decide _); [|congruence].
  all: by apply onInput_body_settled.
Qed.

Lemma onInput_n_unfold n v w :
  onInput_n fromFormat (S n) v w =
  onInput_settled fromFormat v
    (if decide (value (self w) = v) then w
     else watchValue (onInput_settled fromFormat v (on_self (with_value v) w))).
Proof.
  simpl. unfold assign_with at 2.
  destruct (decide _) as [Hv|Hv].
  - by apply onInput_body_settled.
  - rewrite onInput_n_same by reflexivity.
    apply onInput_body_settled. simpl. apply onInput_settled_value.
Qed.

(** More fuel changes nothing: [onInput] re-enters itself once at most. *)
Lemma onInput_n_stable n v w :
  onInput_n fromFormat (S n) v w = onInput fromFormat v w.
Proof. unfold onInput. by rewrite !onInput_n_unfold. Qed.

Lemma onInput_unfold v w :
  onInput fromFormat v w =
  onInput_settled fromFormat v
    (if decide (value (self w) = v) then w
     else watchValue (onInput_settled fromFormat v (on_self (with_value v) w))).
Proof. apply onInput_n_unfold. Qed.

(** ** What [onInput] leaves behind, path by path *)

Lemma assign_isInputInvalid_eq b w :
  assign_isInputInvalid b w =
  {| self := with_isInputInvalid b (self w);
     formValue := formValue w;
     hostClassList := hostClassList w;
     dropdownElementRef := dropdownElementRef w;
     dropdowns := dropdowns w;
     log := log w;
     pending := pending w ++
       (if Bool.eqb (isInputInvalid (self w)) b then [] else [JValidity b]) |}.
Proof.
  unfold assign_isInputInvalid. open_world w. simpl.
  destruct flag0, b; simpl; rewrite ?app_nil_r; reflexivity.
Qed.

Lemma settled_rejects w text :
  text <> "" ->
  format (props (self w)) <> "" ->
  verdict fromFormat (props (self w)) text = true ->
  onInput_settled fromFormat (Some text) w =
  {| self :=
       with_from FromUndefined
         (with_invalidReason
            (or_undefined
               (dt_invalidReason (fromFormat text (format (props (self w))))))
            (with_isInputInvalid true (self w)));
     formValue := formValue w;
     hostClassList := hostClassList w;
     dropdownElementRef := dropdownElementRef w;
     dropdowns := dropdowns w;
     log := log w ++
       [ {| what := Emit (ValueChange (Some text));
            seenInputInvalid := true;
            seenReason :=
              or_undefined
                (dt_invalidReason (fromFormat text (format (props (self w))))) |} ];
     pending := pending w ++
       (if Bool.eqb (isInputInvalid (self w)) true then [] else [JValidity true]) |}.
Proof.
  intros Htext Hfmt Hbad.
  apply String.eqb_neq in Hfmt.
  unfold onInput_settled, onInput_body.
  rewrite (or_undefined_Some _ Htext), Hfmt. cbv zeta. rewrite Hbad.
  rewrite assign_isInputInvalid_eq. reflexivity.
Qed.

Lemma settled_accepts w text :
  text <> "" ->
  format (props (self w)) <> "" ->
  verdict fromFormat (props (self w)) text = false ->
  onInput_settled fromFormat (Some text) w =
  {| self := with_isInputInvalid false (self w);
     formValue := Some text;
     hostClassList := hostClassList w;
     dropdownElementRef := dropdownElementRef w;
     dropdowns := dropdowns w;
     log := log w ++
       [ {| what := SetFormValue (Some text);
            seenInputInvalid := false;
            seenReason := invalidReason (self w) |};
         {| what := Emit (ValueChange (Some text));
            seenInputInvalid := false;
            seenReason := invalidReason (self w) |} ];
     pending := pending w ++
       (if Bool.eqb (isInputInvalid (self w)) false then [] else [JValidity false]) ++
       [JClose] |}.
Proof.
  intros Htext Hfmt Hok.
  apply String.eqb_neq in Hfmt.
  unfold onInput_settled, onInput_body.
  rewrite (or_undefined_Some _ Htext), Hfmt. cbv zeta. rewrite Hok.
  rewrite assign_isInputInvalid_eq. unfold updateFormInternalValue.
  rewrite (truthy_Some _ Htext).
  unfold emit, closeDropdown, park, record_effect, with_formValue, with_pending.
  simpl. rewrite <- !app_assoc. reflexivity.
Qed.

Lemma settled_clears w v :
  or_undefined v = None ->
  onInput_settled fromFormat v w = emit (ValueChange v) w.
Proof. intros Hv. unfold onInput_settled, onInput_body. by rewrite Hv. Qed.

Lemma settled_no_format w text :
  text <> "" ->
  format (props (self w)) = "" ->
  onInput_settled fromFormat (Some text) w = w.
Proof.
  intros Htext Hfmt. apply String.eqb_eq in Hfmt.
  unfold onInput_settled, onInput_body.
  by rewrite (or_undefined_Some _ Htext), Hfmt.
Qed.

Lemma onInput_rejects w text :
  text <> "" ->
  format (props (self w)) <> "" ->
  verdict fromFormat (props (self w)) text = true ->
  onInput fromFormat (Some text) w =
  {| self := rejected fromFormat text (self w);
     formValue := formValue w;
     hostClassList := hostClassList w;
     dropdownElementRef := dropdownElementRef w;
     dropdowns := dropdowns w;
     log := log w ++
       once_or_twice (bool_decide (value (self w) = Some text))
         [entry_of (Emit (ValueChange (Some text)))
            (rejected fromFormat text (self w))];
     pending := pending w ++
       (if isInputInvalid (self w) then [] else [JValidity true]) |}.
Proof.
  intros Htext Hfmt Hbad.
  rewrite onInput_unfold. unfold rejected, entry_of.
  case_bool_decide as Hv; destruct (decide _); try congruence.
  - rewrite settled_rejects by done.
    open_world w. simpl in *. subst. by destruct flag0.
  - rewrite (settled_rejects (on_self _ w)) by done.
    rewrite settled_rejects by done.
    open_world w. simpl. rewrite <- !app_assoc.
    destruct flag0; simpl; rewrite ?app_nil_r; reflexivity.
Qed.

Lemma onInput_accepts w text :
  text <> "" ->
  format (props (self w)) <> "" ->
  verdict fromFormat (props (self w)) text = false ->
  onInput fromFormat (Some text) w =
  {| self := accepted text (self w);
     formValue := Some text;
     hostClassList := hostClassList w;
     dropdownElementRef := dropdownElementRef w;
     dropdowns := dropdowns w;
     log := log w ++
       once_or_twice (bool_decide (value (self w) = Some text))
         [entry_of (SetFormValue (Some text)) (accepted text (self w));
          entry_of (Emit (ValueChange (Some text))) (accepted text (self w))];
     pending := pending w ++
       (if isInputInvalid (self w) then [JValidity false] else []) ++
       once_or_twice (bool_decide (value (self w) = Some text)) [JClose] |}.
Proof.
  intros Htext Hfmt Hok.
  rewrite onInput_unfold. unfold accepted, entry_of.
  case_bool_decide as Hv; destruct (decide _); try congruence.
  - rewrite settled_accepts by done.
    open_world w. simpl in *. subst. by destruct flag0.
  - rewrite (settled_accepts (on_self _ w)) by done.
    rewrite settled_accepts by done.
    open_world w. simpl. rewrite <- !app_assoc.
    destruct flag0; simpl; reflexivity.
Qed.

Lemma onInput_clears w v :
  or_undefined v = None ->
  onInput fromFormat v w =
  {| self := stored v (self w);
     formValue := formValue w;
     hostClassList := hostClassList w;
     dropdownElementRef := dropdownElementRef w;
     dropdowns := dropdowns w;
     log := log w ++
       once_or_twice (bool_decide (value (self w) = v))
         [entry_of (Emit (ValueChange v)) (self w)];
     pending := pending w |}.
Proof.
  intros Hv.
  rewrite onInput_unfold, !(settled_clears _ _ Hv). unfold stored, entry_of.
  case_bool_decide as Hw; destruct (decide _); try congruence.
  - by open_world w.
  - apply World_ext; simpl; try reflexivity.
    by rewrite <- app_assoc.
Qed.

Lemma onInput_no_format w text :
  text <> "" ->
  format (props (self w)) = "" ->
  onInput fromFormat (Some text) w = on_self (stored (Some text)) w.
Proof.
  intros Htext Hfmt.
  rewrite onInput_unfold.
  destruct (decide (value (self w) = Some text)) as [Hv|Hv].
  - rewrite settled_no_format by done.
    apply World_ext; simpl; try reflexivity.
    unfold stored. by destruct (decide _).
  - rewrite (settled_no_format (on_self _ w)) by done.
    rewrite settled_no_format by done.
    apply World_ext; simpl; try reflexivity.
    unfold stored. by destruct (decide _).
Qed.

End Verdict.

(** ** The overlay registry *)

Lemma visible_dismissAll i (reg : gmap string Overlay) : ~ visible i (dismissAll reg).
Proof.
  intros (o & Ho & Hv). unfold dismissAll in Ho. rewrite lookup_fmap in Ho.
  destruct (reg !! i) as [o'|]; simpl in Ho; [|done].
  injection Ho as <-. discriminate Hv.
Qed.

Lemma registered_dismissAll i (reg : gmap string Overlay) :
  is_Some (dismissAll reg !! i) <-> is_Some (reg !! i).
Proof.
  unfold dismissAll. rewrite lookup_fmap. split.
  - intros [o Ho]. destruct (reg !! i); [eauto | discriminate].
  - intros [o ->]. simpl. eauto.
Qed.

Lemma dismissAll_none_visible (reg : gmap string Overlay) :
  none_visible reg -> dismissAll reg = reg.
Proof.
  intros Hnone. apply map_eq. intros i.
  unfold dismissAll. rewrite lookup_fmap.
  destruct (reg !! i) as [[t b]|] eqn:Hi; simpl; [|done].
  destruct b; [|done].
  exfalso. apply (Hnone i). exists {| trigger := t; visibility := true |}. done.
Qed.

Lemma visible_present i id (reg : gmap string Overlay) :
  visible i (present id reg) <->
  (i = id /\ is_Some (reg !! id)) \/ (i <> id /\ visible i reg).
Proof.
  unfold present, visible. destruct (reg !! id) as [o|] eqn:Hid.
  - destruct (decide (i = id)) as [->|Hne].
    + rewrite lookup_insert_eq. split.
      * intros _. left. eauto.
      * intros _. eexists. split; [reflexivity | done].
    + rewrite lookup_insert_ne by done. split.
      * intros H. by right.
      * intros [[? _]|[_ H]]; [done | exact H].
  - split.
    + intros (o & Ho & Hv). right. split; [congruence | eauto].
    + intros [[_ [? ?]]|[_ H]]; [done | exact H].
Qed.

Lemma visible_dismiss i id (reg : gmap string Overlay) :
  visible i (dismiss id reg) <-> i <> id /\ visible i reg.
Proof.
  unfold dismiss, visible. destruct (reg !! id) as [o|] eqn:Hid.
  - destruct (decide (i = id)) as [->|Hne].
    + rewrite lookup_insert_eq. split.
      * intros (o' & [= <-] & Hv). discriminate Hv.
      * intros [? _]. done.
    + rewrite lookup_insert_ne by done. split.
      * intros H. by split.
      * intros [_ H]. exact H.
  - split.
    + intros (o & Ho & Hv). split; [congruence | eauto].
    + intros [_ H]. exact H.
Qed.

Lemma present_unknown id (reg : gmap string Overlay) :
  reg !! id = None -> present id reg = reg.
Proof. intros H. unfold present. by rewrite H. Qed.

Lemma none_visible_at_most_one (reg : gmap string Overlay) :
  none_visible reg -> at_most_one_visible reg.
Proof. intros H i j Hi _. by destruct (H i). Qed.

Lemma at_most_one_present_dismissAll id (reg : gmap string Overlay) :
  at_most_one_visible (present id (dismissAll reg)).
Proof.
  intros i j Hi Hj.
  apply visible_present in Hi as [[-> _]|[_ Hi]];
    [|by apply visible_dismissAll in Hi].
  apply visible_present in Hj as [[-> _]|[_ Hj]];
    [done | by apply visible_dismissAll in Hj].
Qed.

Lemma at_most_one_dismiss id (reg : gmap string Overlay) :
  at_most_one_visible reg -> at_most_one_visible (dismiss id reg).
Proof.
  intros H i j Hi Hj.
  apply visible_dismiss in Hi as [_ Hi]. apply visible_dismiss in Hj as [_ Hj].
  by apply H.
Qed.

(** The registry after the controller part of [openDropdown]: the check
    on [getDropdownById] and the no-op of [present] on an unknown
    identifier coincide. *)
Lemma dropdowns_openDropdown_resumed attr w :
  dropdowns (openDropdown_resumed attr w) =
  match or_undefined attr with
  | Some id => present id (dismissAll (dropdowns w))
  | None => dismissAll (dropdowns w)
  end.
Proof.
  unfold openDropdown_resumed. destruct (or_undefined attr) as [id|]; [|done].
  unfold getDropdownById. simpl.
  destruct (dismissAll (dropdowns w) !! id) eqn:Hid; simpl; [done|].
  by rewrite present_unknown.
Qed.

Lemma dropdowns_closeDropdown_resumed attr w :
  dropdowns (closeDropdown_resumed attr w) =
  match or_undefined attr with
  | Some id => dismiss id (dropdowns w)
  | None => dropdowns w
  end.
Proof.
  unfold closeDropdown_resumed. destruct (or_undefined attr) as [id|]; [|done].
  unfold getDropdownById.
  destruct (dropdowns w !! id) eqn:Hid; simpl; [done|].
  unfold dismiss. by rewrite Hid.
Qed.

Lemma at_most_one_openDropdown_resumed attr w :
  at_most_one_visible (dropdowns (openDropdown_resumed attr w)).
Proof.
  rewrite dropdowns_openDropdown_resumed. destruct (or_undefined attr).
  - apply at_most_one_present_dismissAll.
  - apply none_visible_at_most_one. intros i. apply visible_dismissAll.
Qed.

Lemma at_most_one_closeDropdown_resumed attr w :
  at_most_one_visible (dropdowns w) ->
  at_most_one_visible (dropdowns (closeDropdown_resumed attr w)).
Proof.
  rewrite dropdowns_closeDropdown_resumed. destruct (or_undefined attr); [|done].
  apply at_most_one_dismiss.
Qed.

Lemma at_most_one_overlay_step o w :
  at_most_one_visible (dropdowns w) ->
  at_most_one_visible (dropdowns (overlay_step o w)).
Proof.
  destruct o; simpl; intros H.
  - apply at_most_one_openDropdown_resumed.
  - by apply at_most_one_closeDropdown_resumed.
  - apply none_visible_at_most_one. intros i. apply visible_dismissAll.
Qed.

(** ** Continuations *)


Lemma same_component_refl w : same_component w w.
Proof. by repeat split. Qed.

Lemma same_component_trans w1 w2 w3 :
  same_component w1 w2 -> same_component w2 w3 -> same_component w1 w3.
Proof. unfold same_component. intros (?&?&?&?) (?&?&?&?). repeat split; congruence. Qed.

Lemma same_component_openDropdown_resumed attr w :
  same_component w (openDropdown_resumed attr w).
Proof.
  unfold openDropdown_resumed. destruct (or_undefined attr); [|by repeat split].
  destruct (getDropdownById _ _); by repeat split.
Qed.

Lemma same_component_closeDropdown_resumed attr w :
  same_component w (closeDropdown_resumed attr w).
Proof.
  unfold closeDropdown_resumed. destruct (or_undefined attr); [|by repeat split].
  destruct (getDropdownById _ _); by repeat split.
Qed.

Lemma pending_openDropdown_resumed attr w :
  pending (openDropdown_resumed attr w) = pending w.
Proof.
  unfold openDropdown_resumed. destruct (or_undefined attr); [|done].
  by destruct (getDropdownById _ _).
Qed.

Lemma pending_closeDropdown_resumed attr w :
  pending (closeDropdown_resumed attr w) = pending w.
Proof.
  unfold closeDropdown_resumed. destruct (or_undefined attr); [|done].
  by destruct (getDropdownById _ _).
Qed.

Lemma log_openDropdown_resumed attr w :
  exists es, log (openDropdown_resumed attr w) = (log w ++ es)%list /\
    Forall (continuation_entry (self w)) es /\ validity_emits es = 0.
Proof.
  unfold openDropdown_resumed. destruct (or_undefined attr) as [id|].
  - destruct (getDropdownById _ _).
    + eexists [_; _]. simpl. rewrite <- app_assoc. split; [reflexivity|].
      split; [|done]. repeat constructor; simpl; discriminate.
    + eexists [_]. simpl. split; [reflexivity|].
      split; [|done]. repeat constructor; simpl; discriminate.
  - eexists [_]. simpl. split; [reflexivity|].
    split; [|done]. repeat constructor; simpl; discriminate.
Qed.

Lemma log_closeDropdown_resumed attr w :
  exists es, log (closeDropdown_resumed attr w) = (log w ++ es)%list /\
    Forall (continuation_entry (self w)) es /\ validity_emits es = 0.
Proof.
  unfold closeDropdown_resumed.
  assert (Hnil : exists es : list Entry, log w = (log w ++ es)%list /\
      Forall (continuation_entry (self w)) es /\ validity_emits es = 0).
  { exists []. by rewrite app_nil_r. }
  destruct (or_undefined attr) as [id|]; [|done].
  destruct (getDropdownById _ _); [|done].
  eexists [_]. simpl. split; [reflexivity|].
  split; [|done]. repeat constructor; simpl; discriminate.
Qed.

Lemma resume_same_component j w w' :
  resume j w = Some w' -> same_component w w' /\ pending w' = pending w.
Proof.
  destruct j; simpl.
  - intros [= <-]. by repeat split.
  - destruct (dropdownElementRef w) as [attr|]; [|done]. intros [= <-].
    split; [apply same_component_openDropdown_resumed
           | apply pending_openDropdown_resumed].
  - destruct (dropdownElementRef w) as [attr|]; [|done]. intros [= <-].
    split; [apply same_component_closeDropdown_resumed
           | apply pending_closeDropdown_resumed].
Qed.

Lemma resume_log j w w' :
  resume j w = Some w' ->
  exists es, log w' = (log w ++ es)%list /\
    Forall (continuation_entry (self w)) es /\
    validity_emits es = (if is_validity_job j then 1 else 0).
Proof.
  destruct j; simpl.
  - intros [= <-]. eexists [_]. simpl. split; [reflexivity|].
    split; [|done]. repeat constructor.
  - destruct (dropdownElementRef w) as [attr|]; [|done]. intros [= <-].
    apply log_openDropdown_resumed.
  - destruct (dropdownElementRef w) as [attr|]; [|done]. intros [= <-].
    apply log_closeDropdown_resumed.
Qed.

Lemma resume_validity_job m w : is_Some (resume (JValidity m) w).
Proof. simpl. eauto. Qed.

Lemma resume_all_same_component js w :
  same_component w (resume_all js w).
Proof.
  revert w. induction js as [|j js IH]; intros w; simpl.
  - apply same_component_refl.
  - destruct (resume j w) as [w'|] eqn:Hj.
    + apply resume_same_component in Hj as [Hj _].
      eapply same_component_trans; [exact Hj | apply IH].
    + eapply same_component_trans; [|apply IH]. by repeat split.
Qed.

Lemma resume_all_log js w :
  exists es, log (resume_all js w) = (log w ++ es)%list /\
    Forall (continuation_entry (self w)) es /\
    validity_emits es = parked_validity js.
Proof.
  revert w. induction js as [|j js IH]; intros w; simpl.
  - exists []. by rewrite app_nil_r.
  - destruct (resume j w) as [w'|] eqn:Hj.
    + destruct (resume_same_component _ _ _ Hj) as [(Hself & _) _].
      destruct (resume_log _ _ _ Hj) as (es1 & Hlog1 & Hall1 & Hn1).
      destruct (IH w') as (es2 & Hlog2 & Hall2 & Hn2).
      exists (es1 ++ es2)%list. rewrite Hlog2, Hlog1, <- app_assoc.
      split; [done|]. split.
      * apply Forall_app. split; [done|]. by rewrite <- Hself.
      * rewrite validity_emits_app, Hn1, Hn2.
        unfold parked_validity. simpl. by destruct (is_validity_job j).
    + destruct (IH (park j w)) as (es & Hlog & Hall & Hn).
      exists es. split; [exact Hlog|]. split; [exact Hall|].
      rewrite Hn. by destruct j.
Qed.

Lemma resume_all_parked_validity js w :
  parked_validity (pending (resume_all js w)) = parked_validity (pending w).
Proof.
  revert w. induction js as [|j js IH]; intros w; simpl; [done|].
  destruct (resume j w) as [w'|] eqn:Hj.
  - apply resume_same_component in Hj as [_ Hp]. by rewrite IH, Hp.
  - rewrite IH. destruct j; simpl in Hj; [done| |].
    all: simpl; rewrite parked_validity_app; unfold parked_validity; simpl; lia.
Qed.

Lemma resume_all_at_most_one js w :
  at_most_one_visible (dropdowns w) ->
  at_most_one_visible (dropdowns (resume_all js w)).
Proof.
  revert w. induction js as [|j js IH]; intros w H; simpl; [done|].
  destruct (resume j w) as [w'|] eqn:Hj; [|by apply IH].
  apply IH. destruct j; simpl in Hj.
  - by injection Hj as <-.
  - destruct (dropdownElementRef w); [|done]. injection Hj as <-.
    apply at_most_one_openDropdown_resumed.
  - destruct (dropdownElementRef w); [|done]. injection Hj as <-.
    by apply at_most_one_closeDropdown_resumed.
Qed.

Lemma resume_all_app js1 js2 w :
  resume_all (js1 ++ js2) w = resume_all js2 (resume_all js1 w).
Proof.
  revert w. induction js1 as [|j js1 IH]; intros w; simpl; [done|].
  by destruct (resume j w).
Qed.

(** *** [drain] *)

Lemma drain_same_component w : same_component w (drain w).
Proof.
  unfold drain. eapply same_component_trans; [|apply resume_all_same_component].
  by repeat split.
Qed.

Lemma drain_self w : self (drain w) = self w.
Proof. apply drain_same_component. Qed.

Lemma drain_formValue w : formValue (drain w) = formValue w.
Proof. apply drain_same_component. Qed.

Lemma drain_log w :
  exists es, log (drain w) = (log w ++ es)%list /\
    Forall (continuation_entry (self w)) es /\
    validity_emits es = parked_validity (pending w).
Proof. unfold drain. apply (resume_all_log (pending w) (with_pending [] w)). Qed.

Lemma drain_parked_validity w : parked_validity (pending (drain w)) = 0.
Proof. unfold drain. by rewrite resume_all_parked_validity. Qed.

Lemma drain_at_most_one w :
  at_most_one_visible (dropdowns w) -> at_most_one_visible (dropdowns (drain w)).
Proof. intros H. unfold drain. by apply resume_all_at_most_one. Qed.

(** ** Frames of [onInput] and of the handlers *)

Section Handlers.

Variable fromFormat : string -> string -> DateTime.

(** Split a goal about [onInput fromFormat v w] along the four paths of
    the method and rewrite with what the path leaves behind. *)
Ltac onInput_paths v w :=
  let text := fresh "text" in
  let Hnone := fresh "Hnone" in
  let Htext := fresh "Htext" in
  let Hfmt := fresh "Hfmt" in
  let Hverdict := fresh "Hverdict" in
  destruct (or_undefined_cases v) as [[Hnone _]|(text & -> & Htext & _)];
  [ rewrite (onInput_clears fromFormat w v Hnone)
  | destruct (decide (format (props (self w)) = "")) as [Hfmt|Hfmt];
    [ rewrite (onInput_no_format fromFormat w text Htext Hfmt)
    | destruct (verdict fromFormat (props (self w)) text) eqn:Hverdict;
      [ rewrite (onInput_rejects fromFormat w text Htext Hfmt Hverdict)
      | rewrite (onInput_accepts fromFormat w text Htext Hfmt Hverdict) ] ] ].

Lemma isInputInvalid_accepted text c : isInputInvalid (accepted text c) = false.
Proof. unfold accepted. by destruct (decide _). Qed.

Lemma invalidReason_accepted text c : invalidReason (accepted text c) = invalidReason c.
Proof. unfold accepted. by destruct (decide _). Qed.

Lemma value_accepted text c : value (accepted text c) = Some text.
Proof. unfold accepted. by destruct (decide _). Qed.

Lemma isInvalid_accepted text c : isInvalid (accepted text c) = isInvalid c.
Proof. unfold accepted. by destruct (decide _). Qed.

Lemma isInputInvalid_stored v c : isInputInvalid (stored v c) = isInputInvalid c.
Proof. unfold stored. by destruct (decide _). Qed.

Lemma invalidReason_stored v c : invalidReason (stored v c) = invalidReason c.
Proof. unfold stored. by destruct (decide _). Qed.

Lemma value_stored v c : value (stored v c) = v.
Proof. unfold stored. by destruct (decide _). Qed.

Lemma isInvalid_stored v c : isInvalid (stored v c) = isInvalid c.
Proof. unfold stored. by destruct (decide _). Qed.

Lemma onInput_dropdowns v w : dropdowns (onInput fromFormat v w) = dropdowns w.
Proof. onInput_paths v w; reflexivity. Qed.

Lemma onInput_dropdownElementRef v w :
  dropdownElementRef (onInput fromFormat v w) = dropdownElementRef w.
Proof. onInput_paths v w; reflexivity. Qed.

Lemma onInput_value v w : value (self (onInput fromFormat v w)) = v.
Proof.
  onInput_paths v w; simpl;
    auto using value_stored, value_accepted.
Qed.

Lemma onInput_isInvalid v w :
  isInvalid (self (onInput fromFormat v w)) = isInvalid (self w).
Proof.
  onInput_paths v w; simpl;
    auto using isInvalid_stored, isInvalid_accepted.
Qed.

(** The synchronous part of [onInput] logs value changes and form values
    only, each stamped with the verdict the method ends with. *)
Lemma onInput_log v w :
  exists es, log (onInput fromFormat v w) = (log w ++ es)%list /\
    Forall (saw_verdict_of (self (onInput fromFormat v w))) es /\
    Forall (fun e => is_value_emit e = true -> what e = Emit (ValueChange v)) es /\
    validity_emits es = 0 /\
    List.filter is_controller_call es = [].
Proof.
  onInput_paths v w; simpl.
  - eexists. split; [reflexivity|].
    unfold saw_verdict_of. rewrite isInputInvalid_stored, invalidReason_stored.
    destruct (bool_decide _); simpl; repeat split; by repeat constructor.
  - exists []. rewrite app_nil_r. by repeat split.
  - eexists. split; [reflexivity|].
    destruct (bool_decide _); simpl; repeat split; by repeat constructor.
  - eexists. split; [reflexivity|].
    destruct (bool_decide _); simpl; repeat split;
      repeat constructor; simpl; try done.
Qed.

(** [onInput] parks one validity notification when it flips the flag and
    none otherwise. *)
Lemma onInput_notifications v w :
  notifications (onInput fromFormat v w) =
  notifications w +
  (if Bool.eqb (isInputInvalid (self w))
        (isInputInvalid (self (onInput fromFormat v w)))
   then 0 else 1).
Proof.
  unfold notifications. onInput_paths v w; simpl.
  - rewrite isInputInvalid_stored, Bool.eqb_reflx, validity_emits_app.
    destruct (bool_decide _); simpl; unfold validity_emits; simpl; lia.
  - rewrite isInputInvalid_stored, Bool.eqb_reflx. lia.
  - rewrite validity_emits_app, parked_validity_app.
    destruct (bool_decide _), (isInputInvalid (self w)); simpl;
      unfold validity_emits, parked_validity; simpl; lia.
  - rewrite isInputInvalid_accepted, validity_emits_app, !parked_validity_app.
    destruct (bool_decide _), (isInputInvalid (self w)); simpl;
      unfold validity_emits, parked_validity; simpl; lia.
Qed.

Lemma assign_value_unfold v w :
  assign_value fromFormat v w =
  if decide (value (self w) = v) then w
  else watchValue (onInput fromFormat v (on_self (with_value v) w)).
Proof. reflexivity. Qed.

Lemma handle_notifications op w :
  notifications (handle fromFormat op w) =
  notifications w +
  (if Bool.eqb (isInputInvalid (self w))
        (isInputInvalid (self (handle fromFormat op w)))
   then 0 else 1).
Proof.
  destruct op; simpl; try apply onInput_notifications.
  - rewrite assign_value_unfold. destruct (decide _).
    + rewrite Bool.eqb_reflx. lia.
    + apply (onInput_notifications v (on_self (with_value v) w)).
  - unfold notifications, input_onFocus, openDropdown. simpl.
    rewrite Bool.eqb_reflx, validity_emits_app, parked_validity_app.
    unfold validity_emits, parked_validity. simpl. lia.
  - unfold notifications, input_onBlur. simpl.
    rewrite Bool.eqb_reflx, validity_emits_app.
    unfold validity_emits. simpl. lia.
  - unfold notifications, onCalenderClick, openDropdown.
    destruct (negb _); simpl; rewrite Bool.eqb_reflx; [|lia].
    rewrite parked_validity_app. unfold parked_validity. simpl. lia.
  - rewrite Bool.eqb_reflx. unfold notifications. simpl. lia.
  - rewrite Bool.eqb_reflx. unfold notifications. simpl. lia.
  - rewrite Bool.eqb_reflx. unfold notifications. simpl. lia.
  - rewrite Bool.eqb_reflx. unfold notifications. simpl. lia.
  - destruct o; simpl.
    + destruct (same_component_openDropdown_resumed attr w) as [-> _].
      rewrite Bool.eqb_reflx. unfold notifications.
      rewrite pending_openDropdown_resumed.
      destruct (log_openDropdown_resumed attr w) as (es & -> & _ & Hn).
      rewrite validity_emits_app. lia.
    + destruct (same_component_closeDropdown_resumed attr w) as [-> _].
      rewrite Bool.eqb_reflx. unfold notifications.
      rewrite pending_closeDropdown_resumed.
      destruct (log_closeDropdown_resumed attr w) as (es & -> & _ & Hn).
      rewrite validity_emits_app. lia.
    + rewrite Bool.eqb_reflx. unfold notifications. simpl.
      rewrite validity_emits_app. unfold validity_emits. simpl. lia.
Qed.

Lemma exec_validity_emits op w :
  validity_emits (log (exec fromFormat op w)) =
  notifications w +
  (if Bool.eqb (isInputInvalid (self w))
        (isInputInvalid (self (exec fromFormat op w)))
   then 0 else 1).
Proof.
  unfold exec. rewrite drain_self.
  destruct (drain_log (handle fromFormat op w)) as (es & -> & _ & Hn).
  rewrite validity_emits_app, Hn. apply handle_notifications.
Qed.

Lemma handle_at_most_one op w :
  at_most_one_visible (dropdowns w) ->
  at_most_one_visible (dropdowns (handle fromFormat op w)).
Proof.
  destruct op; simpl; rewrite ?onInput_dropdowns; try done.
  - rewrite assign_value_unfold. destruct (decide _); [done|].
    simpl. by rewrite onInput_dropdowns.
  - unfold onCalenderClick. by destruct (negb _).
  - apply at_most_one_overlay_step.
Qed.

Lemma exec_at_most_one op w :
  at_most_one_visible (dropdowns w) ->
  at_most_one_visible (dropdowns (exec fromFormat op w)).
Proof. intros H. apply drain_at_most_one. by apply handle_at_most_one. Qed.

Lemma run_at_most_one ops w :
  at_most_one_visible (dropdowns w) ->
  at_most_one_visible (dropdowns (run fromFormat ops w)).
Proof.
  revert w. induction ops as [|op ops IH]; intros w H; simpl; [done|].
  apply IH. by apply exec_at_most_one.
Qed.

(** Between two tasks no validity notification is parked. *)
Lemma reachable_no_parked_validity w :
  reachable fromFormat w -> parked_validity (pending w) = 0.
Proof. intros [p v classes reg | op w' _]; apply drain_parked_validity. Qed.

End Handlers.

(** ** More on continuations and the log *)

Lemma filter_none {A} (f : A -> bool) (l : list A) :
  Forall (fun x => f x = false) l -> List.filter f l = [].
Proof.
  induction 1 as [|x l Hx _ IH]; simpl; [done|]. by rewrite Hx.
Qed.

Lemma continuation_entries_no_value_emit c es :
  Forall (continuation_entry c) es -> List.filter is_value_emit es = [].
Proof.
  intros H. apply filter_none. eapply Forall_impl; [exact H|].
  by intros e (_ & He & _).
Qed.

Lemma continuation_entries_saw c es :
  Forall (continuation_entry c) es -> Forall (saw_verdict_of c) es.
Proof.
  intros H. eapply Forall_impl; [exact H|]. by intros e (He & _).
Qed.

(** A [closeDropdown] parked last leaves the overlay of the field hidden
    once the continuations have run. *)
Lemma drain_closes w js id :
  pending w = (js ++ [JClose])%list ->
  dropdownElementRef w = Some (Some id) ->
  id <> "" ->
  ~ visible id (dropdowns (drain w)).
Proof.
  intros Hp Hel Hid. unfold drain. rewrite Hp, resume_all_app.
  set (w2 := resume_all js (with_pending [] w)).
  assert (Hel2 : dropdownElementRef w2 = Some (Some id)).
  { destruct (resume_all_same_component js (with_pending [] w)) as (_ & _ & H & _).
    fold w2 in H. by rewrite H. }
  simpl. rewrite Hel2. simpl.
  rewrite dropdowns_closeDropdown_resumed, (or_undefined_Some _ Hid).
  intros Hv. apply visible_dismiss in Hv as [Hne _]. by apply Hne.
Qed.

Lemma registered_present i id (reg : gmap string Overlay) :
  is_Some (present id reg !! i) <-> is_Some (reg !! i).
Proof.
  unfold present. destruct (reg !! id) as [o|] eqn:Hid; [|done].
  destruct (decide (i = id)) as [->|Hne].
  - rewrite lookup_insert_eq, Hid. split; eauto.
  - by rewrite lookup_insert_ne.
Qed.

Lemma registered_openDropdown_resumed i attr w :
  is_Some (dropdowns (openDropdown_resumed attr w) !! i) <->
  is_Some (dropdowns w !! i).
Proof.
  rewrite dropdowns_openDropdown_resumed. destruct (or_undefined attr).
  - rewrite registered_present. apply registered_dismissAll.
  - apply registered_dismissAll.
Qed.

Lemma openDropdown_resumed_unknown attr w :
  or_undefined attr = None \/
  (exists id, attr = Some id /\ dropdowns w !! id = None) ->
  openDropdown_resumed attr w = ctl_dismissAll w.
Proof.
  unfold openDropdown_resumed.
  intros [-> | (id & -> & Hid)]; [done|].
  destruct (or_undefined (Some id)) as [id'|] eqn:Hor; [|done].
  assert (id' = id) as ->.
  { unfold or_undefined in Hor. destruct (truthy _); congruence. }
  unfold getDropdownById. simpl. unfold dismissAll.
  by rewrite lookup_fmap, Hid.
Qed.

(** * The claims *)

Section Claims.

Variable fromFormat : string -> string -> DateTime.

(** C1 (amended).  For every non-empty input text and every non-empty
    configured pattern: when the text does not parse under the pattern, or
    parses to a date outside [minDate, maxDate], [onInput] leaves
    [isInputInvalid = true], leaves the committed form value as it was (no
    form value is handed to the form internals), and the [value] prop holds
    the rejected text. *)
Theorem onInput_rejected_keeps_form_value w text :
  text <> "" ->
  format (props (self w)) <> "" ->
  unparsable fromFormat (props (self w)) text \/
  outside_bounds fromFormat (props (self w)) text ->
  let w' := onInput fromFormat (Some text) w in
  isInputInvalid (self w') = true /\
  formValue w' = formValue w /\
  value (self w') = Some text /\
  Forall (fun e => forall x, what e <> SetFormValue x) (entries_since w w').
Proof.
  intros Htext Hfmt Hbad w'. subst w'.
  apply verdict_rejects in Hbad.
  rewrite (onInput_rejects _ w text Htext Hfmt Hbad).
  repeat split.
  unfold entries_since. simpl. rewrite drop_app_length.
  apply Forall_once_or_twice. by repeat constructor.
Qed.

(** C2.  For every non-empty input text that parses under the configured
    pattern (the empty pattern parses nothing) to a date within
    [minDate, maxDate], the input task leaves [isInputInvalid = false],
    commits the text as form value and as [value], leaves the overlay of
    this field hidden, and emits value-change events that all carry the
    text, at least one of them. *)
Theorem onInput_accepted_commits_and_closes w text :
  text <> "" ->
  (forall s, dt_isValid (fromFormat s "") = false) ->
  within_bounds fromFormat (props (self w)) text ->
  let w' := exec fromFormat (UserTypes text) w in
  isInputInvalid (self w') = false /\
  value (self w') = Some text /\
  formValue w' = Some text /\
  (forall id, id <> "" -> dropdownElementRef w = Some (Some id) ->
     ~ visible id (dropdowns w')) /\
  In (Emit (ValueChange (Some text))) (List.map what (entries_since w w')) /\
  Forall (fun e => is_value_emit e = true ->
                   what e = Emit (ValueChange (Some text)))
    (entries_since w w').
Proof.
  intros Htext Hpat Hin w'.
  assert (Hfmt : format (props (self w)) <> "").
  { intros E. destruct Hin as (t & Ht & _). rewrite E in Ht.
    specialize (Hpat text). by rewrite Ht in Hpat. }
  apply verdict_accepts in Hin.
  pose proof (onInput_accepts _ w text Htext Hfmt Hin) as Hw1.
  subst w'. unfold exec. simpl handle.
  set (w1 := onInput fromFormat (Some text) w) in *.
  destruct (drain_log w1) as (es' & Hlog & Hall & _).
  assert (Hsince : entries_since w (drain w1) =
    (once_or_twice (bool_decide (value (self w) = Some text))
       [entry_of (SetFormValue (Some text)) (accepted text (self w));
        entry_of (Emit (ValueChange (Some text))) (accepted text (self w))]
     ++ es')%list).
  { apply entries_since_app. rewrite Hlog, Hw1. simpl. by rewrite app_assoc. }
  rewrite drain_self, drain_formValue, Hsince.
  split; [rewrite Hw1; apply isInputInvalid_accepted|].
  split; [rewrite Hw1; apply value_accepted|].
  split; [by rewrite Hw1|].
  split; [|split].
  - intros id Hid Hel.
    assert (exists js, pending w1 = (js ++ [JClose])%list) as [js Hjs].
    { rewrite Hw1. simpl.
      set (js0 := if isInputInvalid (self w) then [JValidity false] else []).
      destruct (bool_decide _); simpl.
      - exists (pending w ++ js0)%list. by rewrite <- app_assoc.
      - exists (pending w ++ js0 ++ [JClose])%list. by rewrite <- !app_assoc. }
    apply (drain_closes w1 js id Hjs); [|done].
    by rewrite Hw1.
  - rewrite List.map_app. apply in_or_app. left.
    destruct (bool_decide _); simpl; auto.
  - apply Forall_app. split.
    + apply Forall_once_or_twice. by repeat constructor.
    + eapply Forall_impl; [exact Hall|].
      intros e (_ & He & _) He'. congruence.
Qed.

(** C3 (amended).  Right after every run of [hookValidationLifecycle],
    [isInputInvalid = true] implies [isInvalid = true], whatever validation
    results the hook is given. *)
Theorem hook_parse_invalidity_dominates r w :
  isInputInvalid (self w) = true ->
  isInvalid (self (hookValidationLifecycle r w)) = true /\
  isInputInvalid (self (hookValidationLifecycle r w)) = true /\
  isInvalid (self (exec fromFormat (ValidationHook r) w)) = true.
Proof.
  intros H. unfold exec. rewrite drain_self. simpl. rewrite H.
  by rewrite !orb_true_r.
Qed.

(** C4.  Through any sequence of tasks (opening and closing the overlay of
    this field or of any other field, bare [dismissAll] calls) the
    registry keeps at most one overlay visible; and after the overlay A and
    then the registered overlay B have been opened, B is visible and no
    other overlay is. *)
Theorem at_most_one_overlay_visible ops w a b :
  at_most_one_visible (dropdowns w) ->
  b <> "" ->
  is_Some (dropdowns w !! b) ->
  at_most_one_visible (dropdowns (run fromFormat ops w)) /\
  (let w2 := overlay_step (OpenFor (Some b)) (overlay_step (OpenFor a) w) in
   visible b (dropdowns w2) /\
   forall i, visible i (dropdowns w2) -> i = b).
Proof.
  intros Hone Hb Hreg. split; [by apply run_at_most_one|].
  simpl. rewrite dropdowns_openDropdown_resumed, (or_undefined_Some _ Hb).
  split.
  - apply visible_present. left. split; [done|].
    by apply registered_dismissAll, registered_openDropdown_resumed.
  - intros i Hi. apply visible_present in Hi as [[-> _]|[_ Hi]]; [done|].
    by apply visible_dismissAll in Hi.
Qed.

(** C5 (amended).  In every state, an input of the empty string leaves the
    [value] prop empty ([hasValidValue] is false), touches neither the
    committed form value nor [isInputInvalid], and emits value-change
    events, at least one, each carrying the empty string itself. *)
Theorem onInput_cleared_emits_raw_value w :
  let w' := onInput fromFormat (Some "") w in
  value (self w') = Some "" /\
  hasValidValue (self w') = false /\
  formValue w' = formValue w /\
  isInputInvalid (self w') = isInputInvalid (self w) /\
  entries_since w w' <> [] /\
  Forall (fun e => what e = Emit (ValueChange (Some ""))) (entries_since w w').
Proof.
  intros w'. subst w'.
  rewrite (onInput_clears _ w (Some "") eq_refl).
  unfold entries_since, hasValidValue. simpl.
  rewrite drop_app_length, value_stored, isInputInvalid_stored.
  repeat split.
  - by destruct (bool_decide _).
  - apply Forall_once_or_twice. by repeat constructor.
Qed.

(** C6 (amended).  When [onInput] rejects a non-empty text under a
    non-empty pattern: if the text did not parse, the recorded reason is
    the reason of the parser (non-empty whenever the parser gives one); if
    the text parsed to a date outside [minDate, maxDate], the flag is set
    along the same path and no reason is recorded ([invalidReason] is
    [undefined]). *)
Theorem rejected_reason_is_parse_reason w text :
  text <> "" ->
  format (props (self w)) <> "" ->
  let w' := onInput fromFormat (Some text) w in
  (forall r, fromFormat text (format (props (self w))) = DTInvalid r ->
     isInputInvalid (self w') = true /\
     (r <> "" -> invalidReason (self w') = Some r)) /\
  (outside_bounds fromFormat (props (self w)) text ->
     isInputInvalid (self w') = true /\ invalidReason (self w') = None).
Proof.
  intros Htext Hfmt w'. subst w'. split.
  - intros r Hr.
    assert (Hbad : verdict fromFormat (props (self w)) text = true).
    { apply verdict_rejects. left. unfold unparsable. by rewrite Hr. }
    rewrite (onInput_rejects _ w text Htext Hfmt Hbad). simpl.
    split; [done|]. intros Hne. rewrite Hr. simpl.
    apply (or_undefined_Some _ Hne).
  - intros Hout.
    assert (Hbad : verdict fromFormat (props (self w)) text = true).
    { apply verdict_rejects. by right. }
    rewrite (onInput_rejects _ w text Htext Hfmt Hbad). simpl.
    split; [done|]. destruct Hout as (t & -> & _). done.
Qed.

(** C7 (amended).  The controller part of [openDropdown] for a missing or
    never registered identifier completes without presenting anything: it
    is exactly the [dismissAll] that precedes the identifier check.  No
    overlay is visible afterwards, the registered identifiers are the same,
    the component is untouched, and the registry is unchanged when no
    overlay was visible before. *)
Theorem openDropdown_unknown_id_only_dismisses attr w :
  or_undefined attr = None \/
  (exists id, attr = Some id /\ dropdowns w !! id = None) ->
  let w' := openDropdown_resumed attr w in
  dropdowns w' = dismissAll (dropdowns w) /\
  none_visible (dropdowns w') /\
  (forall i, is_Some (dropdowns w' !! i) <-> is_Some (dropdowns w !! i)) /\
  (none_visible (dropdowns w) -> dropdowns w' = dropdowns w) /\
  same_component w w' /\
  List.map what (entries_since w w') = [CtlDismissAll].
Proof.
  intros Hunknown w'. subst w'.
  rewrite (openDropdown_resumed_unknown _ _ Hunknown). simpl.
  split; [done|]. split; [intros i; apply visible_dismissAll|].
  split; [intros i; apply registered_dismissAll|].
  split; [apply dismissAll_none_visible|].
  split; [by repeat split|].
  unfold entries_since. simpl. by rewrite drop_app_length.
Qed.

(** C8.  Over a task started between two tasks, exactly one
    validity-state-change event is emitted when the task changes
    [isInputInvalid], and none when it does not: an input that keeps the
    flag, a run of the validation hook or of the class observer emit
    nothing, and a change of the flag emits its event whatever [isInvalid]
    and the other validity members are before and after. *)
Theorem validity_notification_once_per_flip op w :
  reachable fromFormat w ->
  let w' := exec fromFormat op w in
  validity_emits (log w') =
  validity_emits (log w) +
  (if Bool.eqb (isInputInvalid (self w)) (isInputInvalid (self w'))
   then 0 else 1).
Proof.
  intros Hreach w'. subst w'.
  rewrite exec_validity_emits. unfold notifications.
  rewrite (reachable_no_parked_validity _ _ Hreach). lia.
Qed.

(** C9.  In an input task the verdict is in place before anything leaves
    the component: [isInputInvalid] (and, on rejection, the reason) is set
    by the synchronous part of [onInput]; every effect of the task, the
    value-change events and the controller calls included, is logged with
    exactly that verdict; the value-change events are all emitted by the
    synchronous part; and the controller calls all come after it, from the
    continuation of [closeDropdown]. *)
Theorem input_verdict_precedes_effects v w :
  let w1 := onInput fromFormat v w in
  let w' := drain w1 in
  (forall text, v = Some text -> text <> "" -> format (props (self w)) <> "" ->
     isInputInvalid (self w1) = verdict fromFormat (props (self w)) text /\
     (verdict fromFormat (props (self w)) text = true ->
      invalidReason (self w1) =
      or_undefined (dt_invalidReason (fromFormat text (format (props (self w))))))) /\
  self w' = self w1 /\
  Forall (saw_verdict_of (self w1)) (entries_since w w') /\
  List.filter is_value_emit (entries_since w w') =
    List.filter is_value_emit (entries_since w w1) /\
  List.filter is_controller_call (entries_since w w1) = [].
Proof.
  intros w1 w'. split.
  { intros text -> Htext Hfmt. subst w1.
    destruct (verdict fromFormat (props (self w)) text) eqn:Hv.
    - by rewrite (onInput_rejects _ w text Htext Hfmt Hv).
    - rewrite (onInput_accepts _ w text Htext Hfmt Hv). simpl.
      split; [apply isInputInvalid_accepted | done]. }
  destruct (onInput_log fromFormat v w) as (es & Hlog1 & Hsaw & _ & _ & Hctl).
  destruct (drain_log w1) as (es' & Hlog & Hall & _).
  fold w1 in Hlog1, Hsaw. fold w' in Hlog.
  assert (Hsince1 : entries_since w w1 = es) by by apply entries_since_app.
  assert (Hsince : entries_since w w' = (es ++ es')%list).
  { apply entries_since_app. by rewrite Hlog, Hlog1, app_assoc. }
  rewrite Hsince, Hsince1.
  split; [apply drain_self|].
  split; [|split; [|done]].
  - apply Forall_app. split; [done|].
    by apply continuation_entries_saw.
  - rewrite List.filter_app, (continuation_entries_no_value_emit _ _ Hall).
    by rewrite app_nil_r.
Qed.

End Claims.

(** C10.  [hasValidValue()] resolves to [true] exactly when the [value]
    prop is a non-empty text.  After [onInput] of a non-empty text it is
    [true] whatever the verdict; in particular it is [true] when [onInput]
    has rejected the text and the component holds
    [isInputInvalid = true]. *)
Theorem hasValidValue_iff_value_nonempty :
  (forall c, hasValidValue c = true <-> exists s, value c = Some s /\ s <> "") /\
  (forall fromFormat w text,
     text <> "" ->
     hasValidValue (self (onInput fromFormat (Some text) w)) = true) /\
  (forall fromFormat w text,
     text <> "" ->
     format (props (self w)) <> "" ->
     unparsable fromFormat (props (self w)) text \/
     outside_bounds fromFormat (props (self w)) text ->
     let w' := onInput fromFormat (Some text) w in
     isInputInvalid (self w') = true /\ hasValidValue (self w') = true).
Proof.
  split; [|split].
  - intros c. apply truthy_true_iff.
  - intros fromFormat w text Htext. unfold hasValidValue.
    rewrite onInput_value. by apply truthy_Some.
  - intros fromFormat w text Htext Hfmt Hbad w'. subst w'.
    apply verdict_rejects in Hbad.
    unfold hasValidValue. rewrite onInput_value.
    split; [|by apply truthy_Some].
    by rewrite (onInput_rejects _ w text Htext Hfmt Hbad).
Qed.

(** * Concrete runs *)

Lemma twoOverlays_none_visible : none_visible twoOverlays.
Proof.
  intros i (o & Ho & Hv). unfold twoOverlays, register in Ho.
  destruct (decide (i = "B")) as [->|HB].
  - rewrite lookup_insert_eq in Ho. injection Ho as <-. discriminate Hv.
  - rewrite lookup_insert_ne in Ho by done.
    destruct (decide (i = "A")) as [->|HA].
    + rewrite lookup_insert_eq in Ho. injection Ho as <-. discriminate Hv.
    + rewrite lookup_insert_ne in Ho by done. by rewrite lookup_empty in Ho.
Qed.

Lemma overlayAShown_visible : visible "A" overlayAShown.
Proof. eexists. split; [vm_compute; reflexivity | reflexivity]. Qed.

(** Scenario A: ["2024/02/30"] under ["yyyy/LL/dd"] is rejected with the
    reason of the parser, and the form value committed before stays. *)
Example scenario_A :
  isInputInvalid (self (onInput luxon_yyyyLLdd (Some "2024/02/30") committedWorld)) = true /\
  invalidReason (self (onInput luxon_yyyyLLdd (Some "2024/02/30") committedWorld))
    = Some "unit out of range" /\
  formValue (onInput luxon_yyyyLLdd (Some "2024/02/30") committedWorld)
    = Some "2024/05/05".
Proof. vm_compute. by repeat split. Qed.

(** C1, counterexample.  With the empty pattern configured, the text
    ["abc"] does not parse, and [onInput] leaves [isInputInvalid = false];
    likewise the empty text does not parse under the default pattern and
    [onInput] leaves the flag [false]. *)
Lemma onInput_guards_counterexample :
  (unparsable luxon_yyyyLLdd (props (self noFormatWorld)) "abc" /\
   isInputInvalid (self (onInput luxon_yyyyLLdd (Some "abc") noFormatWorld)) = false) /\
  (unparsable luxon_yyyyLLdd (props (self committedWorld)) "" /\
   isInputInvalid (self (onInput luxon_yyyyLLdd (Some "") committedWorld)) = false).
Proof. vm_compute. by repeat split. Qed.

(** C3, counterexample.  A reachable world with [isInputInvalid = true]
    and [isInvalid = false]: the default field after ["2024/02/30"] has
    been typed. *)
Lemma reachable_parse_invalid_not_isInvalid :
  reachable luxon_yyyyLLdd rejectedWorld /\
  isInputInvalid (self rejectedWorld) = true /\
  isInvalid (self rejectedWorld) = false.
Proof.
  split; [apply reachable_exec, reachable_loaded|].
  vm_compute. by split.
Qed.

(** The class observer alone also drops the parse verdict from
    [isInvalid]. *)
Example checkClassList_ignores_parse_verdict :
  isInputInvalid (self (checkClassList rejectedWorld)) = true /\
  isInvalid (self (checkClassList rejectedWorld)) = false.
Proof. vm_compute. by split. Qed.

(** C5, counterexample.  After the valid text ["2024/05/05"] has been
    committed, an input of the empty string emits value-change events that
    carry the empty string; none carries [undefined]. *)
Lemma cleared_event_carries_empty_string :
  formValue committedWorld = Some "2024/05/05" /\
  isInputInvalid (self committedWorld) = false /\
  List.map what
    (entries_since committedWorld
       (onInput luxon_yyyyLLdd (Some "") committedWorld))
  = [Emit (ValueChange (Some "")); Emit (ValueChange (Some ""))] /\
  ~ In (Emit (ValueChange None))
      (List.map what
         (entries_since committedWorld
            (onInput luxon_yyyyLLdd (Some "") committedWorld))).
Proof.
  vm_compute. repeat split. intros [H|[H|[]]]; discriminate H.
Qed.

(** C6, counterexample.  Scenario B: with the bounds of 2024, the text
    ["2023/12/31"] parses, lies before the minimum, is rejected, and no
    reason is recorded. *)
Lemma out_of_range_records_no_reason :
  dt_isValid (luxon_yyyyLLdd "2023/12/31" "yyyy/LL/dd") = true /\
  isInputInvalid (self (onInput luxon_yyyyLLdd (Some "2023/12/31") openWorld2024)) = true /\
  invalidReason (self (onInput luxon_yyyyLLdd (Some "2023/12/31") openWorld2024)) = None.
Proof. vm_compute. by repeat split. Qed.

(** C7, counterexample.  While overlay A is shown, [openDropdown] for the
    identifier ["Z"], never registered, hides A: the registry has
    changed. *)
Lemma openDropdown_unknown_id_changes_registry :
  dropdowns besideShownOverlay !! "Z" = None /\
  visible "A" (dropdowns besideShownOverlay) /\
  ~ visible "A" (dropdowns (openDropdown_resumed (Some "Z") besideShownOverlay)) /\
  dropdowns (openDropdown_resumed (Some "Z") besideShownOverlay)
    <> dropdowns besideShownOverlay.
Proof.
  assert (Hafter : ~ visible "A"
    (dropdowns (openDropdown_resumed (Some "Z") besideShownOverlay))).
  { intros (o & Ho & Hv). vm_compute in Ho. injection Ho as <-. discriminate Hv. }
  split; [vm_compute; reflexivity|].
  split; [apply overlayAShown_visible|].
  split; [exact Hafter|].
  intros Heq. apply Hafter. rewrite Heq. apply overlayAShown_visible.
Qed.

(** ** The theorems at the sample configurations *)

(** C1 at scenario A: ["2024/02/30"] typed after ["2024/05/05"] was
    committed. *)
Lemma onInput_rejected_keeps_form_value_witness :
  isInputInvalid (self (onInput luxon_yyyyLLdd (Some "2024/02/30") committedWorld)) = true /\
  formValue (onInput luxon_yyyyLLdd (Some "2024/02/30") committedWorld)
    = formValue committedWorld /\
  value (self (onInput luxon_yyyyLLdd (Some "2024/02/30") committedWorld))
    = Some "2024/02/30" /\
  Forall (fun e => forall x, what e <> SetFormValue x)
    (entries_since committedWorld
       (onInput luxon_yyyyLLdd (Some "2024/02/30") committedWorld)).
Proof.
  apply (onInput_rejected_keeps_form_value luxon_yyyyLLdd committedWorld "2024/02/30").
  - discriminate.
  - vm_compute. discriminate.
  - left. vm_compute. reflexivity.
Defined.

(** C2 at a date of 2024 typed into the field bounded to 2024 while its
    overlay A is open. *)
Lemma onInput_accepted_commits_and_closes_witness :
  visible "A" (dropdowns openWorld2024) /\
  isInputInvalid (self (exec luxon_yyyyLLdd (UserTypes "2024/06/01") openWorld2024)) = false /\
  value (self (exec luxon_yyyyLLdd (UserTypes "2024/06/01") openWorld2024))
    = Some "2024/06/01" /\
  formValue (exec luxon_yyyyLLdd (UserTypes "2024/06/01") openWorld2024)
    = Some "2024/06/01" /\
  ~ visible "A"
      (dropdowns (exec luxon_yyyyLLdd (UserTypes "2024/06/01") openWorld2024)).
Proof.
  split.
  { eexists. split; [vm_compute; reflexivity | reflexivity]. }
  destruct (onInput_accepted_commits_and_closes luxon_yyyyLLdd openWorld2024 "2024/06/01")
    as (Hflag & Hvalue & Hform & Hclosed & _).
  - discriminate.
  - intros s. reflexivity.
  - eexists. split; [vm_compute; reflexivity|].
    split; intros m Hm; vm_compute in Hm; injection Hm as <-; discriminate.
  - repeat split; try assumption.
    apply Hclosed; [discriminate | vm_compute; reflexivity].
Defined.

(** C3 at the hook raising nothing, after ["2024/02/30"] was typed. *)
Lemma hook_parse_invalidity_dominates_witness :
  isInvalid (self (hookValidationLifecycle nothingRaised rejectedWorld)) = true /\
  isInputInvalid (self (hookValidationLifecycle nothingRaised rejectedWorld)) = true /\
  isInvalid (self (exec luxon_yyyyLLdd (ValidationHook nothingRaised) rejectedWorld)) = true.
Proof.
  apply (hook_parse_invalidity_dominates luxon_yyyyLLdd nothingRaised rejectedWorld).
  vm_compute. reflexivity.
Defined.

(** C4 at a focus, an open of overlay B by another field and an input,
    and at scenario E. *)
Lemma at_most_one_overlay_visible_witness :
  at_most_one_visible
    (dropdowns
       (run luxon_yyyyLLdd
          [DropdownMounted (Some "A"); InputFocus;
           OtherField (OpenFor (Some "B")); UserTypes "2024/05/05"]
          besideHiddenOverlays)) /\
  visible "B"
    (dropdowns
       (overlay_step (OpenFor (Some "B"))
          (overlay_step (OpenFor (Some "A")) besideHiddenOverlays))) /\
  (forall i,
     visible i
       (dropdowns
          (overlay_step (OpenFor (Some "B"))
             (overlay_step (OpenFor (Some "A")) besideHiddenOverlays))) ->
     i = "B").
Proof.
  apply (at_most_one_overlay_visible luxon_yyyyLLdd _ besideHiddenOverlays (Some "A") "B").
  - apply none_visible_at_most_one, twoOverlays_none_visible.
  - discriminate.
  - eexists. vm_compute. reflexivity.
Defined.

(** C6 at scenario A and at scenario B. *)
Lemma rejected_reason_is_parse_reason_witness :
  invalidReason (self (onInput luxon_yyyyLLdd (Some "2024/02/30") openWorld2024))
    = Some "unit out of range" /\
  invalidReason (self (onInput luxon_yyyyLLdd (Some "2023/12/31") openWorld2024))
    = None.
Proof.
  split.
  - apply (proj1 (rejected_reason_is_parse_reason luxon_yyyyLLdd openWorld2024
                    "2024/02/30" ltac:(discriminate) ltac:(vm_compute; discriminate))
             "unit out of range").
    + vm_compute. reflexivity.
    + discriminate.
  - apply (proj2 (rejected_reason_is_parse_reason luxon_yyyyLLdd openWorld2024
                    "2023/12/31" ltac:(discriminate) ltac:(vm_compute; discriminate))).
    eexists. split; [vm_compute; reflexivity|].
    left. eexists. split; [vm_compute; reflexivity | reflexivity].
Defined.

(** C7 at the identifier ["Z"], never registered, while no overlay is
    shown: the registry stays as it is. *)
Lemma openDropdown_unknown_id_only_dismisses_witness :
  none_visible (dropdowns (openDropdown_resumed (Some "Z") besideHiddenOverlays)) /\
  dropdowns (openDropdown_resumed (Some "Z") besideHiddenOverlays)
    = dropdowns besideHiddenOverlays.
Proof.
  destruct (openDropdown_unknown_id_only_dismisses (Some "Z") besideHiddenOverlays)
    as (_ & Hnone & _ & Hsame & _).
  - right. exists "Z". split; [reflexivity | vm_compute; reflexivity].
  - split; [exact Hnone|]. apply Hsame, twoOverlays_none_visible.
Defined.

(** C8 at the first rejected input of the default field: the flag flips
    and one event is emitted. *)
Lemma validity_notification_once_per_flip_witness :
  validity_emits
    (log (exec luxon_yyyyLLdd (UserTypes "2024/02/30")
            (loaded luxon_yyyyLLdd defaultProps (Some "") [] ∅)))
  = validity_emits (log (loaded luxon_yyyyLLdd defaultProps (Some "") [] ∅)) + 1.
Proof.
  pose proof (validity_notification_once_per_flip luxon_yyyyLLdd
                (UserTypes "2024/02/30")
                (loaded luxon_yyyyLLdd defaultProps (Some "") [] ∅)
                (reachable_loaded luxon_yyyyLLdd defaultProps (Some "") [] ∅))
    as Honce.
  cbv zeta in Honce. rewrite Honce. vm_compute. reflexivity.
Defined.

(** C9 at scenario A. *)
Lemma input_verdict_precedes_effects_witness :
  isInputInvalid (self (onInput luxon_yyyyLLdd (Some "2024/02/30") committedWorld))
    = verdict luxon_yyyyLLdd (props (self committedWorld)) "2024/02/30" /\
  Forall
    (saw_verdict_of (self (onInput luxon_yyyyLLdd (Some "2024/02/30") committedWorld)))
    (entries_since committedWorld
       (drain (onInput luxon_yyyyLLdd (Some "2024/02/30") committedWorld))).
Proof.
  destruct (input_verdict_precedes_effects luxon_yyyyLLdd (Some "2024/02/30") committedWorld)
    as (Hverdict & _ & Hsaw & _).
  split; [|exact Hsaw].
  apply (Hverdict "2024/02/30" eq_refl).
  - discriminate.
  - vm_compute. discriminate.
Defined.

(** C10 at scenario A. *)
Lemma hasValidValue_iff_value_nonempty_witness :
  isInputInvalid (self (onInput luxon_yyyyLLdd (Some "2024/02/30") committedWorld)) = true /\
  hasValidValue (self (onInput luxon_yyyyLLdd (Some "2024/02/30") committedWorld)) = true.
Proof.
  apply (proj2 (proj2 hasValidValue_iff_value_nonempty)
           luxon_yyyyLLdd committedWorld "2024/02/30").
  - discriminate.
  - vm_compute. discriminate.
  - left. vm_compute. reflexivity.
Defined.

(** * Further properties of the date input *)

(** Split along the four paths of [onInput ff v w]; the equations of the
    path are left in the context. *)
Ltac onInput_cases ff v w :=
  let text := fresh "text" in
  let Hnone := fresh "Hnone" in
  let Htext := fresh "Htext" in
  let Hor := fresh "Hor" in
  let Hfmt := fresh "Hfmt" in
  let Hverdict := fresh "Hverdict" in
  destruct (or_undefined_cases v) as [[Hnone _]|(text & -> & Htext & Hor)];
  [ rewrite ?(onInput_clears ff w v Hnone)
  | destruct (decide (format (props (self w)) = "")) as [Hfmt|Hfmt];
    [ rewrite ?(onInput_no_format ff w text Htext Hfmt)
    | destruct (verdict ff (props (self w)) text) eqn:Hverdict;
      [ rewrite ?(onInput_rejects ff w text Htext Hfmt Hverdict)
      | rewrite ?(onInput_accepts ff w text Htext Hfmt Hverdict) ] ] ].

Section Summaries.

Variable fromFormat : string -> string -> DateTime.

Lemma props_stored v c : props (stored v c) = props c.
Proof. unfold stored. by destruct (decide _). Qed.


Lemma touched_stored v c : touched (stored v c) = touched c.
Proof. unfold stored. by destruct (decide _). Qed.

Lemma touched_accepted text c : touched (accepted text c) = touched c.
Proof. unfold accepted. by destruct (decide _). Qed.


Lemma touched_onInput v w : touched (self (onInput fromFormat v w)) = touched (self w).
Proof.
  onInput_cases fromFormat v w; simpl; auto using touched_stored, touched_accepted.
Qed.

Lemma flag_onInput v w :
  isInputInvalid (self (onInput fromFormat v w)) = flag_after fromFormat v (self w).
Proof.
  unfold flag_after. onInput_cases fromFormat v w; simpl.
  - by rewrite Hnone, isInputInvalid_stored.
  - apply String.eqb_eq in Hfmt. by rewrite Hor, Hfmt, isInputInvalid_stored.
  - apply String.eqb_neq in Hfmt. by rewrite Hor, Hfmt.
  - apply String.eqb_neq in Hfmt. by rewrite Hor, Hfmt, isInputInvalid_accepted.
Qed.

Lemma formValue_onInput v w :
  formValue (onInput fromFormat v w) =
  committed_after fromFormat v (self w) (formValue w).
Proof.
  unfold committed_after. onInput_cases fromFormat v w; simpl.
  - by rewrite Hnone.
  - apply String.eqb_eq in Hfmt. by rewrite Hor, Hfmt.
  - apply String.eqb_neq in Hfmt. by rewrite Hor, Hfmt, Hverdict.
  - apply String.eqb_neq in Hfmt. by rewrite Hor, Hfmt, Hverdict.
Qed.

Lemma self_settled v w :
  self (onInput_settled fromFormat v w) = settle fromFormat v (self w).
Proof.
  unfold settle.
  destruct (or_undefined_cases v) as [[Hnone _]|(text & -> & Htext & Hor)].
  - by rewrite (settled_clears _ _ _ Hnone), Hnone.
  - rewrite Hor. destruct (String.eqb_spec (format (props (self w))) "") as [Hfmt|Hfmt].
    + by rewrite (settled_no_format _ _ _ Htext Hfmt).
    + destruct (verdict fromFormat (props (self w)) text) eqn:Hverdict.
      * by rewrite (settled_rejects _ _ _ Htext Hfmt Hverdict).
      * by rewrite (settled_accepts _ _ _ Htext Hfmt Hverdict).
Qed.

Lemma value_settle v c : value (settle fromFormat v c) = value c.
Proof.
  unfold settle. destruct (or_undefined v); [|done].
  destruct (String.eqb _ _); [done|]. by destruct (verdict _ _ _).
Qed.

Lemma props_settle v c : props (settle fromFormat v c) = props c.
Proof.
  unfold settle. destruct (or_undefined v); [|done].
  destruct (String.eqb _ _); [done|]. by destruct (verdict _ _ _).
Qed.

(** Apart from [from], running the body a second time changes nothing. *)
Lemma settle_idempotent v c :
  settle fromFormat v (settle fromFormat v c) = settle fromFormat v c.
Proof.
  unfold settle. destruct (or_undefined v) as [text|]; [|done].
  destruct (String.eqb (format (props c)) "") eqn:Hfmt; [by rewrite Hfmt|].
  destruct (verdict fromFormat (props c) text) eqn:Hverdict; simpl;
    rewrite Hfmt, Hverdict; by destruct c.
Qed.

Lemma settle_with_from f v c :
  settle fromFormat v (with_from f c) =
  (if isInputInvalid (settle fromFormat v c) && truthy v
      && negb (String.eqb (format (props c)) "")
   then settle fromFormat v c
   else with_from f (settle fromFormat v c)).
Proof.
  unfold settle.
  destruct (or_undefined_cases v) as [[Hnone Hv]|(text & -> & Htext & Hor)].
  - rewrite Hnone, Hv. by rewrite andb_false_r.
  - rewrite Hor, (truthy_Some _ Htext). simpl.
    destruct (String.eqb (format (props c)) "") eqn:Hfmt; simpl.
    + by rewrite andb_false_r.
    + destruct (verdict fromFormat (props c) text) eqn:Hverdict; simpl.
      * by destruct c.
      * by destruct c.
Qed.

Lemma self_onInput v w :
  self (onInput fromFormat v w) =
  settle fromFormat v
    (if decide (value (self w) = v) then self w
     else with_from (from_of_value v)
            (settle fromFormat v (with_value v (self w)))).
Proof.
  rewrite onInput_unfold, self_settled. destruct (decide _); [done|].
  simpl. rewrite self_settled. simpl. by rewrite value_settle.
Qed.

Lemma self_assign_value v w :
  self (assign_value fromFormat v w) =
  if decide (value (self w) = v) then self w
  else with_from (from_of_value v) (settle fromFormat v (with_value v (self w))).
Proof.
  rewrite assign_value_unfold. destruct (decide _) as [Hv|Hv]; [done|].
  simpl. rewrite self_onInput. simpl.
  destruct (decide _); [|done].
  by rewrite value_settle.
Qed.

End Summaries.

(** ** Helper facts *)

Lemma with_from_with_from f g c : with_from f (with_from g c) = with_from f c.
Proof. by destruct c. Qed.

Lemma or_undefined_falsy v : truthy v = false -> or_undefined v = None.
Proof. intros H. unfold or_undefined. by rewrite H. Qed.

Lemma entries_since_same_log w0 w w' :
  log w0 = log w -> entries_since w0 w' = entries_since w w'.
Proof. intros H. unfold entries_since. by rewrite H. Qed.

Lemma validity_events_app l1 l2 :
  validity_events (l1 ++ l2) = (validity_events l1 ++ validity_events l2)%list.
Proof. unfold validity_events. apply flat_map_app. Qed.

Lemma job_events_app r l1 l2 :
  job_events r (l1 ++ l2) = (job_events r l1 ++ job_events r l2)%list.
Proof. unfold job_events. apply flat_map_app. Qed.

Lemma validity_events_none es : validity_emits es = 0 -> validity_events es = [].
Proof.
  unfold validity_emits, validity_events, is_validity_emit.
  induction es as [|e es IH]; simpl; [done|].
  destruct (what e) as [[]| | | |]; simpl; try done; exact IH.
Qed.

Lemma job_events_none r js : parked_validity js = 0 -> job_events r js = [].
Proof.
  unfold parked_validity, job_events.
  induction js as [|j js IH]; simpl; [done|].
  destruct j; simpl; try done; exact IH.
Qed.

Lemma resume_all_validity_events js w :
  exists es, log (resume_all js w) = (log w ++ es)%list /\
    validity_events es = job_events (invalidReason (self w)) js.
Proof.
  revert w. induction js as [|j js IH]; intros w; simpl.
  - exists []. by rewrite app_nil_r.
  - destruct (resume j w) as [w'|] eqn:Hj.
    + destruct (resume_same_component _ _ _ Hj) as [(Hself & _) _].
      destruct (IH w') as (es2 & Hlog2 & Hev2).
      rewrite Hself in Hev2.
      destruct j; simpl in Hj.
      * injection Hj as <-. eexists (_ :: es2). simpl in Hlog2.
        rewrite Hlog2, <- app_assoc. split; [reflexivity|].
        simpl. by rewrite Hev2.
      * destruct (dropdownElementRef w) as [attr|]; [|done]. injection Hj as <-.
        destruct (log_openDropdown_resumed attr w) as (es1 & Hlog1 & _ & Hn1).
        exists (es1 ++ es2)%list. rewrite Hlog2, Hlog1, <- app_assoc.
        split; [done|].
        by rewrite validity_events_app, (validity_events_none _ Hn1), Hev2.
      * destruct (dropdownElementRef w) as [attr|]; [|done]. injection Hj as <-.
        destruct (log_closeDropdown_resumed attr w) as (es1 & Hlog1 & _ & Hn1).
        exists (es1 ++ es2)%list. rewrite Hlog2, Hlog1, <- app_assoc.
        split; [done|].
        by rewrite validity_events_app, (validity_events_none _ Hn1), Hev2.
    + destruct (IH (park j w)) as (es & Hlog & Hev).
      exists es. split; [exact Hlog|]. rewrite Hev. by destruct j.
Qed.

Lemma drain_validity_events w :
  exists es, log (drain w) = (log w ++ es)%list /\
    validity_events es = job_events (invalidReason (self w)) (pending w).
Proof. unfold drain. apply (resume_all_validity_events (pending w) (with_pending [] w)). Qed.

Lemma registered_dismiss i id (reg : gmap string Overlay) :
  is_Some (dismiss id reg !! i) <-> is_Some (reg !! i).
Proof.
  unfold dismiss. destruct (reg !! id) as [o|] eqn:Hid; [|done].
  destruct (decide (i = id)) as [->|Hne].
  - rewrite lookup_insert_eq, Hid. split; eauto.
  - by rewrite lookup_insert_ne.
Qed.

Lemma lookup_dismiss_ne i id (reg : gmap string Overlay) :
  i <> id -> dismiss id reg !! i = reg !! i.
Proof.
  intros Hne. unfold dismiss. destruct (reg !! id); [|done].
  by rewrite lookup_insert_ne.
Qed.

Lemma registered_closeDropdown_resumed i attr w :
  is_Some (dropdowns (closeDropdown_resumed attr w) !! i) <->
  is_Some (dropdowns w !! i).
Proof.
  rewrite dropdowns_closeDropdown_resumed. destruct (or_undefined attr); [|done].
  apply registered_dismiss.
Qed.

Lemma resume_all_registered i js w :
  is_Some (dropdowns (resume_all js w) !! i) <-> is_Some (dropdowns w !! i).
Proof.
  revert w. induction js as [|j js IH]; intros w; simpl; [done|].
  destruct (resume j w) as [w'|] eqn:Hj; [|by rewrite IH].
  rewrite IH. destruct j; simpl in Hj.
  - by injection Hj as <-.
  - destruct (dropdownElementRef w); [|done]. injection Hj as <-.
    apply registered_openDropdown_resumed.
  - destruct (dropdownElementRef w); [|done]. injection Hj as <-.
    apply registered_closeDropdown_resumed.
Qed.

(** An [openDropdown] parked last leaves the overlay of the field as the
    only visible one once the continuations have run. *)
Lemma drain_opens w js id :
  pending w = (js ++ [JOpen])%list ->
  dropdownElementRef w = Some (Some id) ->
  id <> "" ->
  is_Some (dropdowns w !! id) ->
  visible id (dropdowns (drain w)) /\
  forall i, visible i (dropdowns (drain w)) -> i = id.
Proof.
  intros Hp Hel Hid Hreg. unfold drain. rewrite Hp, resume_all_app.
  set (w2 := resume_all js (with_pending [] w)).
  assert (Hel2 : dropdownElementRef w2 = Some (Some id)).
  { destruct (resume_all_same_component js (with_pending [] w)) as (_ & _ & H & _).
    fold w2 in H. by rewrite H. }
  assert (Hreg2 : is_Some (dropdowns w2 !! id)).
  { unfold w2. by apply resume_all_registered. }
  simpl. rewrite Hel2. simpl.
  rewrite dropdowns_openDropdown_resumed, (or_undefined_Some _ Hid).
  split.
  - apply visible_present. left. split; [done|]. by apply registered_dismissAll.
  - intros i Hi. apply visible_present in Hi as [[-> _]|[_ Hi]]; [done|].
    by apply visible_dismissAll in Hi.
Qed.

(** With no dropdown element mounted, the continuations leave the
    registry alone. *)
Lemma resume_all_unmounted js w :
  dropdownElementRef w = None -> dropdowns (resume_all js w) = dropdowns w.
Proof.
  revert w. induction js as [|j js IH]; intros w Hel; simpl; [done|].
  destruct j; simpl; rewrite ?Hel; by rewrite IH.
Qed.

Section VerdictFacts.

Variable fromFormat : string -> string -> DateTime.

Lemma verdict_false_within p text :
  verdict fromFormat p text = false -> within_bounds fromFormat p text.
Proof.
  unfold verdict, within_bounds, dt_lt, dt_gt.
  destruct (fromFormat text _) as [t|r]; simpl; [|done].
  intros H. apply orb_false_iff in H as [Hlt Hgt].
  exists t. split; [done|]. split.
  - intros m Hm. rewrite Hm in Hlt. simpl in Hlt. by apply Z.ltb_ge.
  - intros M HM. rewrite HM in Hgt. simpl in Hgt.
    rewrite Z.gtb_ltb in Hgt. by apply Z.ltb_ge.
Qed.

Lemma isInvalid_settle v c : isInvalid (settle fromFormat v c) = isInvalid c.
Proof.
  unfold settle. destruct (or_undefined v); [|done].
  destruct (String.eqb _ _); [done|]. by destruct (verdict _ _ _).
Qed.

Lemma touched_settle v c : touched (settle fromFormat v c) = touched c.
Proof.
  unfold settle. destruct (or_undefined v); [|done].
  destruct (String.eqb _ _); [done|]. by destruct (verdict _ _ _).
Qed.

Lemma formValue_assign_value v w :
  formValue (assign_value fromFormat v w) =
  if decide (value (self w) = v) then formValue w
  else committed_after fromFormat v (self w) (formValue w).
Proof.
  rewrite assign_value_unfold. destruct (decide _); [done|].
  simpl. by rewrite formValue_onInput.
Qed.

End VerdictFacts.

(** * Further theorems *)

Section Extras.

Variable fromFormat : string -> string -> DateTime.

(** X1.  Whichever way a value enters - typed, picked or assigned by the
    host - the [value] prop afterwards is exactly that value, whatever the
    verdict and the pattern; the input element displays the typed text
    unchanged. *)
Theorem entered_value_is_stored_verbatim d v text w :
  value (self (exec fromFormat (PickerDateChange v) w)) = v /\
  value (self (exec fromFormat (HostAssignsValue v) w)) = v /\
  value (self (exec fromFormat (UserTypes text) w)) = Some text /\
  input_value (render d (self (exec fromFormat (UserTypes text) w))) = text.
Proof.
  unfold exec. rewrite !drain_self. simpl.
  rewrite !onInput_value, self_assign_value.
  repeat split. destruct (decide _); [done|].
  simpl. apply value_settle.
Qed.


(** X3.  How many value-change events one call of [onInput] emits: none
    when a non-empty value meets the empty pattern; otherwise one when the
    value is the stored one and two when it differs, the assignment of
    [value] re-entering [onInput] through its watcher. *)
Theorem onInput_value_change_count v w :
  value_emits (entries_since w (onInput fromFormat v w)) =
  if truthy v && String.eqb (format (props (self w))) "" then 0
  else if bool_decide (value (self w) = v) then 1 else 2.
Proof.
  unfold value_emits, entries_since.
  onInput_cases fromFormat v w.
  - unfold or_undefined in Hnone.
    destruct (truthy v) eqn:Hv; [by rewrite Hnone in Hv|].
    simpl. rewrite drop_app_length. by destruct (bool_decide _).
  - apply String.eqb_eq in Hfmt. rewrite (truthy_Some _ Htext), Hfmt.
    simpl. by rewrite drop_all.
  - apply String.eqb_neq in Hfmt. rewrite (truthy_Some _ Htext), Hfmt.
    simpl. rewrite drop_app_length. by destruct (bool_decide _).
  - apply String.eqb_neq in Hfmt. rewrite (truthy_Some _ Htext), Hfmt.
    simpl. rewrite drop_app_length. by destruct (bool_decide _).
Qed.

(** X4.  An assignment of the [value] prop by the host with a new value
    leaves the members [onInput] leaves for that value, except [from]:
    [watchValue] runs last, so [from] is the assigned value even when the
    verdict rejects it.  The committed form value is the same, and the
    body of [onInput] runs once.  Assigning the stored value does
    nothing. *)
Theorem host_assignment_differs_in_from v w :
  value (self w) <> v ->
  self (assign_value fromFormat v w) =
    with_from (from_of_value v) (self (onInput fromFormat v w)) /\
  from (self (assign_value fromFormat v w)) = from_of_value v /\
  formValue (assign_value fromFormat v w) = formValue (onInput fromFormat v w) /\
  value_emits (entries_since w (assign_value fromFormat v w)) =
    (if truthy v && String.eqb (format (props (self w))) "" then 0 else 1) /\
  assign_value fromFormat (value (self w)) w = w.
Proof.
  intros Hne.
  assert (Hself : self (assign_value fromFormat v w) =
    with_from (from_of_value v) (self (onInput fromFormat v w))).
  { rewrite self_assign_value, self_onInput.
    destruct (decide _); [done|].
    rewrite settle_with_from, settle_idempotent.
    destruct (_ && _ && _); by rewrite ?with_from_with_from. }
  split; [exact Hself|]. split; [by rewrite Hself|]. split; [|split].
  - rewrite formValue_assign_value, formValue_onInput. by destruct (decide _).
  - rewrite assign_value_unfold. destruct (decide _); [done|].
    unfold value_emits, entries_since. simpl.
    change (List.length (log w)) with
      (List.length (log (on_self (with_value v) w))).
    pose proof (onInput_value_change_count v (on_self (with_value v) w)) as Hc.
    unfold value_emits, entries_since in Hc. rewrite Hc. simpl.
    by rewrite bool_decide_true.
  - rewrite assign_value_unfold. by destruct (decide _).
Qed.

(** X5.  The validity notification of an input task carries the flag and
    the reason as the task leaves them: with no notification parked
    before, the task emits none when the flag stays and exactly one,
    [{patternMismatch: new flag, invalidReason: reason held at the end}],
    when it flips.  On a flip back to valid the reason held is still the
    one of the earlier rejection. *)
Theorem validity_event_payload v w :
  parked_validity (pending w) = 0 ->
  let w' := drain (onInput fromFormat v w) in
  validity_events (entries_since w w') =
    (if Bool.eqb (isInputInvalid (self w)) (isInputInvalid (self w')) then []
     else [ValidityStateChange (isInputInvalid (self w')) (invalidReason (self w'))]) /\
  (isInputInvalid (self w') = false -> invalidReason (self w') = invalidReason (self w)).
Proof.
  intros Hparked w'. unfold w'. rewrite drain_self.
  destruct (drain_validity_events (onInput fromFormat v w)) as (es' & Hlog' & Hev').
  destruct (onInput_log fromFormat v w) as (es & Hlog & _ & _ & Hes & _).
  rewrite (entries_since_app w _ (es ++ es')%list)
    by (by rewrite Hlog', Hlog, app_assoc).
  rewrite validity_events_app, (validity_events_none _ Hes), Hev'. simpl.
  pose proof (job_events_none (invalidReason (self (onInput fromFormat v w)))
                _ Hparked) as Hnone.
  revert Hnone. clear.
  onInput_cases fromFormat v w; simpl; intros Hold.
  - rewrite isInputInvalid_stored, Bool.eqb_reflx, invalidReason_stored.
    rewrite invalidReason_stored in Hold. by rewrite Hold.
  - rewrite isInputInvalid_stored, Bool.eqb_reflx, invalidReason_stored.
    simpl in Hold. rewrite invalidReason_stored in Hold. by rewrite Hold.
  - rewrite job_events_app, Hold. simpl.
    destruct (isInputInvalid (self w)); by simpl.
  - rewrite isInputInvalid_accepted, invalidReason_accepted.
    rewrite invalidReason_accepted in Hold.
    rewrite !job_events_app, Hold. simpl.
    destruct (isInputInvalid (self w)), (bool_decide _); by simpl.
Qed.

(** X6.  An empty input ([""] or [undefined]) resets nothing: the flag,
    the reason and the committed form value stay, no validity
    notification is parked, and [getValidityState] still reports the old
    [patternMismatch], now with [valueMissing] for a required field. *)
Theorem clearing_keeps_verdict v w :
  truthy v = false ->
  let w' := onInput fromFormat v w in
  isInputInvalid (self w') = isInputInvalid (self w) /\
  invalidReason (self w') = invalidReason (self w) /\
  formValue w' = formValue w /\
  pending w' = pending w /\
  getValidityState (self w') =
    {| patternMismatch := isInputInvalid (self w);
       valid := negb (isInputInvalid (self w));
       valueMissing :=
         match required (props (self w)) with Some true => true | _ => false end |}.
Proof.
  intros Hv w'. unfold w'.
  rewrite (onInput_clears _ w v (or_undefined_falsy _ Hv)). simpl.
  unfold getValidityState.
  rewrite isInputInvalid_stored, invalidReason_stored, props_stored, value_stored, Hv.
  by rewrite andb_true_r.
Qed.

(** X7.  [componentWillLoad] hands the initial value to the form whatever
    the verdict: after the load the committed form value is the initial
    value ([null] for an empty one) even when the flag is set.  [from] is
    [null] on rejection and the value otherwise, [isInvalid] is the
    presence of the class [ix-invalid], and the controller is not
    touched. *)
Theorem load_commits_initial_value p v classes reg :
  let w0 := created p v classes reg in
  let w := loaded fromFormat p v classes reg in
  value (self w) = v /\
  formValue w = or_undefined v /\
  isInputInvalid (self w) = flag_after fromFormat v (self w0) /\
  from (self w) = (if isInputInvalid (self w) then FromNull else from_of_value v) /\
  isInvalid (self w) = existsb (String.eqb "ix-invalid") classes /\
  dropdowns w = reg.
Proof.
  intros w0 w. unfold w, loaded.
  rewrite drain_self, drain_formValue. unfold drain.
  rewrite resume_all_unmounted.
  2:{ simpl. unfold componentWillLoad, updateFormInternalValue, assign_value, assign_with.
      fold w0. set (w1 := onInput fromFormat (value (self w0)) w0).
      assert (Hel : dropdownElementRef w1 = None) by apply onInput_dropdownElementRef.
      destruct (isInputInvalid (self w1)), (truthy _), (decide _); simpl; done. }
  unfold componentWillLoad. fold w0.
  change (value (self w0)) with v.
  set (w1 := onInput fromFormat v w0).
  assert (Hvalue : value (self w1) = v) by apply onInput_value.
  assert (Hflag : isInputInvalid (self w1) = flag_after fromFormat v (self w0))
    by apply flag_onInput.
  assert (Hreg : dropdowns w1 = reg) by apply onInput_dropdowns.
  assert (Hcl : hostClassList w1 = classes).
  { unfold w1. clear. onInput_cases fromFormat v w0; reflexivity. }
  rewrite <- Hflag.
  unfold updateFormInternalValue, or_undefined.
  destruct (isInputInvalid (self w1)) eqn:Hi; simpl; rewrite Hvalue;
    destruct (truthy v); simpl;
    rewrite assign_value_unfold; simpl; rewrite Hvalue;
    (destruct (decide (v = v)); [|done]); simpl;
    rewrite ?Hvalue, ?Hi, ?Hcl, ?Hreg; done.
Qed.

(** X8.  [touched] is set by a blur and by nothing else, and is never
    reset: after any task it is the old value or-ed with "the task was a
    blur". *)
Theorem touched_only_by_blur op w :
  isTouched (self (exec fromFormat op w)) = isTouched (self w) || is_blur op.
Proof.
  unfold exec, isTouched. rewrite drain_self.
  destruct op; simpl; rewrite ?touched_onInput, ?orb_false_r; try done.
  - rewrite self_assign_value. destruct (decide _); [done|].
    simpl. by rewrite touched_settle.
  - by rewrite orb_true_r.
  - unfold onCalenderClick. by destruct (negb _).
  - destruct o; simpl.
    + by destruct (same_component_openDropdown_resumed attr w) as [-> _].
    + by destruct (same_component_closeDropdown_resumed attr w) as [-> _].
    + done.
Qed.

End Extras.

Section ExtrasOverlay.

Variable fromFormat : string -> string -> DateTime.

(** X9.  A focus on the input, with the dropdown element mounted under a
    registered identifier, leaves the overlay of this field visible and
    every other overlay hidden, emits [ixFocus] and changes no member. *)
Theorem focus_opens_own_overlay w id :
  dropdownElementRef w = Some (Some id) ->
  id <> "" ->
  is_Some (dropdowns w !! id) ->
  let w' := exec fromFormat InputFocus w in
  visible id (dropdowns w') /\
  (forall i, visible i (dropdowns w') -> i = id) /\
  self w' = self w /\
  In (Emit IxFocus) (List.map what (entries_since w w')).
Proof.
  intros Hel Hid Hreg w'. unfold w', exec. simpl handle.
  destruct (drain_opens (input_onFocus w) (pending w) id) as [Hvis Honly];
    try done.
  split; [exact Hvis|]. split; [exact Honly|].
  split; [by rewrite drain_self|].
  destruct (drain_log (input_onFocus w)) as (es & Hlog & _).
  rewrite (entries_since_app w _ (entry_of (Emit IxFocus) (self w) :: es)).
  - simpl. by left.
  - rewrite Hlog. simpl. by rewrite <- app_assoc.
Qed.


(** X11.  The controller part of [closeDropdown] never shows an overlay,
    never touches the overlay of another identifier, and does nothing at
    all for a missing or unregistered identifier (unlike [openDropdown],
    which dismisses all overlays first). *)
Theorem closeDropdown_touches_only_own attr w :
  let w' := closeDropdown_resumed attr w in
  (forall i, visible i (dropdowns w') -> visible i (dropdowns w)) /\
  (forall i, or_undefined attr <> Some i ->
             dropdowns w' !! i = dropdowns w !! i) /\
  (or_undefined attr = None \/
   (exists id, attr = Some id /\ dropdowns w !! id = None) -> w' = w).
Proof.
  intros w'. unfold w'. split; [|split].
  - intros i. rewrite dropdowns_closeDropdown_resumed.
    destruct (or_undefined attr); [|done].
    intros Hv. by apply visible_dismiss in Hv as [_ Hv].
  - intros i Hne. rewrite dropdowns_closeDropdown_resumed.
    destruct (or_undefined attr) as [id|]; [|done].
    apply lookup_dismiss_ne. congruence.
  - unfold closeDropdown_resumed.
    intros [-> | (id & -> & Hid)]; [done|].
    destruct (or_undefined (Some id)) as [id'|] eqn:Hor; [|done].
    assert (id' = id) as ->.
    { unfold or_undefined in Hor. destruct (truthy _); congruence. }
    unfold getDropdownById. by rewrite Hid.
Qed.

(** X12.  The verdict of [onInput] decides membership in
    [minDate, maxDate]: it is [true] exactly for a text that does not
    parse or parses outside the bounds, [false] exactly for a text that
    parses within them; a bound that does not parse (an unset bound among
    them) restricts nothing. *)
Theorem verdict_decides_bounds p text :
  (verdict fromFormat p text = true <->
   unparsable fromFormat p text \/ outside_bounds fromFormat p text) /\
  (verdict fromFormat p text = false <-> within_bounds fromFormat p text) /\
  (dt_isValid (fromFormat (minDate p) (format p)) = false ->
   dt_isValid (fromFormat (maxDate p) (format p)) = false ->
   verdict fromFormat p text = negb (dt_isValid (fromFormat text (format p)))).
Proof.
  split; [|split].
  - split; [|apply verdict_rejects].
    destruct (verdict fromFormat p text) eqn:Hv; [|done]. intros _.
    unfold verdict, unparsable, outside_bounds, dt_lt, dt_gt in *.
    destruct (fromFormat text _) as [t|r]; simpl in *; [|by left].
    right. exists t. split; [done|].
    apply orb_true_iff in Hv as [H|H].
    + left. destruct (fromFormat (minDate p) _) as [m|]; simpl in H; [|done].
      exists m. split; [done|]. by apply Z.ltb_lt.
    + right. destruct (fromFormat (maxDate p) _) as [M|]; simpl in H; [|done].
      exists M. split; [done|]. rewrite Z.gtb_ltb in H. by apply Z.ltb_lt.
  - split; [apply verdict_false_within | apply verdict_accepts].
  - unfold verdict, dt_lt, dt_gt.
    destruct (fromFormat (minDate p) _), (fromFormat (maxDate p) _); try done.
    intros _ _. destruct (fromFormat text _); by simpl.
Qed.

(** X13.  The bounds are inclusive: when the bounds are not inverted, the
    text of [minDate] itself and the text of [maxDate] itself are
    accepted whenever they parse. *)
Theorem bounds_are_inclusive p :
  (forall m M,
     fromFormat (minDate p) (format p) = DTValid m ->
     fromFormat (maxDate p) (format p) = DTValid M -> (m <= M)%Z) ->
  (dt_isValid (fromFormat (minDate p) (format p)) = true ->
   verdict fromFormat p (minDate p) = false) /\
  (dt_isValid (fromFormat (maxDate p) (format p)) = true ->
   verdict fromFormat p (maxDate p) = false).
Proof.
  intros Hord. split; intros Hvalid; apply verdict_accepts; unfold within_bounds.
  - destruct (fromFormat (minDate p) _) as [m|] eqn:Hm; [|done].
    exists m. split; [done|]. split.
    + intros m' [= <-]. lia.
    + intros M HM. by apply Hord.
  - destruct (fromFormat (maxDate p) _) as [M|] eqn:HM; [|done].
    exists M. split; [done|]. split.
    + intros m Hm. by apply Hord.
    + intros M' [= <-]. lia.
Qed.


(** X15.  [isInvalid] is written by the validation hook and by the class
    observer only, each overwriting what the other wrote: after a hook
    run it is [isInvalid || isInvalidByRequired || isInputInvalid], after
    a class change it is the presence of the class [ix-invalid], and every
    other task leaves it as it was. *)
Theorem isInvalid_written_by_hook_and_observer op w :
  isInvalid (self (exec fromFormat op w)) =
  match op with
  | ValidationHook r =>
      vr_isInvalid r || vr_isInvalidByRequired r || isInputInvalid (self w)
  | ClassListChanged classes => existsb (String.eqb "ix-invalid") classes
  | _ => isInvalid (self w)
  end.
Proof.
  unfold exec. rewrite drain_self.
  destruct op; try reflexivity; simpl handle; rewrite ?onInput_isInvalid; try done.
  - rewrite self_assign_value. destruct (decide _); [done|].
    simpl. by rewrite isInvalid_settle.
  - unfold onCalenderClick. by destruct (negb _).
  - destruct o; simpl.
    + by destruct (same_component_openDropdown_resumed attr w) as [-> _].
    + by destruct (same_component_closeDropdown_resumed attr w) as [-> _].
    + done.
Qed.

(** X16.  After the load, a task either leaves the committed form value
    as it is or sets it to a non-empty text that parses within the bounds
    under a non-empty pattern: no task commits a rejected text, and none
    resets the form value to [null]. *)
Theorem form_value_only_takes_accepted_text op w :
  formValue (exec fromFormat op w) = formValue w \/
  exists text,
    formValue (exec fromFormat op w) = Some text /\
    text <> "" /\
    format (props (self w)) <> "" /\
    within_bounds fromFormat (props (self w)) text.
Proof.
  assert (Hcommitted : forall v,
    committed_after fromFormat v (self w) (formValue w) = formValue w \/
    exists text,
      committed_after fromFormat v (self w) (formValue w) = Some text /\
      text <> "" /\ format (props (self w)) <> "" /\
      within_bounds fromFormat (props (self w)) text).
  { intros v. unfold committed_after.
    destruct (or_undefined_cases v) as [[-> _]|(text & -> & Htext & ->)];
      [by left|].
    destruct (String.eqb_spec (format (props (self w))) ""); [by left|].
    destruct (verdict _ _ _) eqn:Hv; [by left|].
    right. exists text. repeat split; try done. by apply verdict_false_within. }
  unfold exec. rewrite drain_formValue.
  destruct op; simpl handle; rewrite ?formValue_onInput; try apply Hcommitted;
    try (by left).
  - rewrite formValue_assign_value. destruct (decide _); [by left|].
    apply Hcommitted.
  - left. unfold onCalenderClick. by destruct (negb _).
  - left. destruct o; simpl.
    + by destruct (same_component_openDropdown_resumed attr w) as (_ & -> & _).
    + by destruct (same_component_closeDropdown_resumed attr w) as (_ & -> & _).
    + done.
Qed.

(** X17.  While the configured pattern is empty, [onInput] stores a
    non-empty text and does nothing else: no event is emitted, nothing is
    parked, and the flag, the reason and the committed form value stay. *)
Theorem no_format_stores_silently w text :
  text <> "" ->
  format (props (self w)) = "" ->
  let w' := onInput fromFormat (Some text) w in
  value (self w') = Some text /\
  log w' = log w /\
  pending w' = pending w /\
  formValue w' = formValue w /\
  isInputInvalid (self w') = isInputInvalid (self w) /\
  invalidReason (self w') = invalidReason (self w).
Proof.
  intros Htext Hfmt w'. unfold w'.
  rewrite (onInput_no_format _ w text Htext Hfmt). simpl.
  by rewrite value_stored, isInputInvalid_stored, invalidReason_stored.
Qed.

(** X18.  The re-entry of [onInput] through the watcher of [value] stops
    after one level: every larger bound on the depth gives the result of
    [onInput], and no re-entry at all is needed when the value is the
    stored one. *)
Theorem onInput_reentry_is_bounded v w :
  (forall n, onInput_n fromFormat (S n) v w = onInput fromFormat v w) /\
  (value (self w) = v ->
   forall n, onInput_n fromFormat n v w = onInput fromFormat v w).
Proof.
  split.
  - intros n. unfold onInput. by rewrite !onInput_n_unfold.
  - intros Hv n. unfold onInput. by rewrite !onInput_n_same.
Qed.

(** X19.  What is rendered after a new non-empty text has been typed
    under a non-empty pattern: the input shows the text; on rejection it
    carries [is-invalid], the invalid text is [i18nErrorDateUnparsable]
    whatever [invalidText] the host set, and the picker gets no date; on
    acceptance the host's [invalidText] is passed on and the picker gets
    the text.  The wrapper's [isInvalid] is not changed by the input. *)
Theorem render_after_typing d w text :
  text <> "" ->
  format (props (self w)) <> "" ->
  value (self w) <> Some text ->
  let r := render d (self (exec fromFormat (UserTypes text) w)) in
  let rejects := verdict fromFormat (props (self w)) text in
  input_value r = text /\
  input_class_is_invalid r = rejects /\
  wrapper_invalidText r =
    (if rejects then Some (i18nErrorDateUnparsable d) else invalidText d) /\
  picker_from r = (if rejects then "" else text) /\
  wrapper_isInvalid r = isInvalid (self w).
Proof.
  intros Htext Hfmt Hnew r rejects. unfold r, rejects, exec.
  rewrite drain_self. simpl handle.
  destruct (verdict fromFormat (props (self w)) text) eqn:Hv.
  - by rewrite (onInput_rejects _ w text Htext Hfmt Hv).
  - rewrite (onInput_accepts _ w text Htext Hfmt Hv). unfold render, accepted.
    simpl. by destruct (decide _).
Qed.

End ExtrasOverlay.

(** * ix-kpi *)

Section KpiFacts.

Variable number : Type.
Variable number_toString : number -> string.

(** X20.  [getStateIcon] and the classes of [render] agree: there is an
    icon exactly when the container carries [alarm] or [warning], never
    both; under [alarm] it is the alarm icon with [ariaLabelAlarmIcon],
    under [warning] the warning icon with [ariaLabelWarningIcon]; any
    other state, not only ['neutral'], gives no icon and neither class. *)
Theorem kpi_icon_matches_classes (k : Kpi.Kpi number) :
  let r := Kpi.render number number_toString k in
  (Kpi.stateIcon r = None <->
   Kpi.class_alarm r = false /\ Kpi.class_warning r = false) /\
  (Kpi.class_alarm r = true -> Kpi.class_warning r = false) /\
  (Kpi.class_alarm r = true ->
   Kpi.stateIcon r =
     Some (Kpi.mkIcon Kpi.IconAlarm (Kpi.ariaLabelAlarmIcon _ k))) /\
  (Kpi.class_warning r = true ->
   Kpi.stateIcon r =
     Some (Kpi.mkIcon Kpi.IconWarning (Kpi.ariaLabelWarningIcon _ k))).
Proof.
  unfold Kpi.render, Kpi.getStateIcon. simpl.
  destruct (String.eqb_spec (Kpi.state _ k) "alarm") as [Ha|Ha].
  - rewrite Ha. simpl. repeat split; try done. by intros [? _].
  - destruct (String.eqb (Kpi.state _ k) "warning"); repeat split; try done.
    by intros [_ ?].
Qed.

(** X21.  [getTooltipText] and the unit of [render] agree: the tooltip is
    ["label: value"], followed by a space and the unit exactly when the
    unit span is rendered, that is for a non-empty unit; a missing label or
    value appears as the text ["undefined"]. *)
Theorem kpi_tooltip_follows_unit (k : Kpi.Kpi number) :
  let r := Kpi.render number number_toString k in
  let base :=
    Kpi.text_of_label (Kpi.label _ k) ++ ": " ++
    Kpi.text_of_value number number_toString (Kpi.value _ k) in
  (Kpi.unit_span r = None -> Kpi.title r = base) /\
  (forall u, Kpi.unit_span r = Some u ->
     u <> "" /\ Kpi.unit _ k = Some u /\ Kpi.title r = base ++ " " ++ u) /\
  (Kpi.label _ k = None -> Kpi.value _ k = None ->
   Kpi.unit _ k = None -> Kpi.title r = "undefined: undefined").
Proof.
  unfold Kpi.render, Kpi.getTooltipText. simpl.
  destruct (truthy (Kpi.unit _ k)) eqn:Hu.
  - apply truthy_true_iff in Hu as (u & Hu & Hne). rewrite Hu.
    split; [done|]. split; [|done].
    intros u' [= <-]. done.
  - split; [done|]. split; [done|].
    by intros -> -> _.
Qed.

End KpiFacts.

(** ** The further theorems at the sample configurations *)

(** X4: the host assigns ["2024/02/30"] after ["2024/05/05"] was
    committed; [from] is the rejected text. *)
Lemma host_assignment_differs_in_from_witness :
  from (self (assign_value luxon_yyyyLLdd (Some "2024/02/30") committedWorld))
  = FromText "2024/02/30".
Proof.
  apply (proj1 (proj2 (host_assignment_differs_in_from luxon_yyyyLLdd
                         (Some "2024/02/30") committedWorld
                         ltac:(vm_compute; discriminate)))).
Defined.

(** X5: ["2024/02/30"] typed after a committed date emits one validity
    event, with the reason of this rejection. *)
Lemma validity_event_payload_witness :
  validity_events
    (entries_since committedWorld
       (drain (onInput luxon_yyyyLLdd (Some "2024/02/30") committedWorld)))
  = [ValidityStateChange true (Some "unit out of range")].
Proof.
  pose proof (proj1 (validity_event_payload luxon_yyyyLLdd (Some "2024/02/30")
                       committedWorld ltac:(vm_compute; reflexivity))) as Hpayload.
  cbv zeta in Hpayload. rewrite Hpayload. vm_compute. reflexivity.
Defined.

(** X6: the rejected field is cleared and stays flagged. *)
Lemma clearing_keeps_verdict_witness :
  isInputInvalid (self (onInput luxon_yyyyLLdd (Some "") rejectedWorld)) = true.
Proof.
  destruct (clearing_keeps_verdict luxon_yyyyLLdd (Some "") rejectedWorld eq_refl)
    as (Hflag & _).
  cbv zeta in Hflag. rewrite Hflag. vm_compute. reflexivity.
Defined.

(** X9: a focus on the field whose overlay A is mounted and hidden. *)
Lemma focus_opens_own_overlay_witness :
  visible "A" (dropdowns (exec luxon_yyyyLLdd InputFocus committedWorld)) /\
  (forall i,
     visible i (dropdowns (exec luxon_yyyyLLdd InputFocus committedWorld)) ->
     i = "A").
Proof.
  destruct (focus_opens_own_overlay luxon_yyyyLLdd committedWorld "A")
    as (Hvisible & Honly & _).
  - vm_compute. reflexivity.
  - discriminate.
  - eexists. vm_compute. reflexivity.
  - split; [exact Hvisible | exact Honly].
Defined.

(** X13: the first and the last day of 2024 under the bounds of 2024. *)
Lemma bounds_are_inclusive_witness :
  verdict luxon_yyyyLLdd props2024 "2024/01/01" = false /\
  verdict luxon_yyyyLLdd props2024 "2024/12/31" = false.
Proof.
  destruct (bounds_are_inclusive luxon_yyyyLLdd props2024) as [Hmin Hmax].
  - intros m M Hm HM. vm_compute in Hm, HM.
    injection Hm as <-. injection HM as <-. discriminate.
  - split; [apply Hmin | apply Hmax]; vm_compute; reflexivity.
Defined.


(** X17: ["abc"] typed into the field with the empty pattern. *)
Lemma no_format_stores_silently_witness :
  value (self (onInput luxon_yyyyLLdd (Some "abc") noFormatWorld)) = Some "abc" /\
  log (onInput luxon_yyyyLLdd (Some "abc") noFormatWorld) = log noFormatWorld.
Proof.
  destruct (no_format_stores_silently luxon_yyyyLLdd noFormatWorld "abc")
    as (Hvalue & Hlog & _).
  - discriminate.
  - vm_compute. reflexivity.
  - split; [exact Hvalue | exact Hlog].
Defined.

(** X19: ["2024/02/30"] typed while the host has set an invalid text of
    its own. *)
Lemma render_after_typing_witness :
  wrapper_invalidText
    (render {| invalidText := Some "Out of service";
               i18nErrorDateUnparsable := "Date is not valid";
               disabled := false; readonly := false |}
       (self (exec luxon_yyyyLLdd (UserTypes "2024/02/30") committedWorld)))
  = Some "Date is not valid".
Proof.
  destruct (render_after_typing luxon_yyyyLLdd
              {| invalidText := Some "Out of service";
                 i18nErrorDateUnparsable := "Date is not valid";
                 disabled := false; readonly := false |}
              committedWorld "2024/02/30")
    as (_ & _ & Htext & _).
  - discriminate.
  - vm_compute. discriminate.
  - vm_compute. discriminate.
  - cbv zeta in Htext. rewrite Htext. vm_compute. reflexivity.
Defined.
